(** * OAuth2 provider controller (oauth_provider/controllers/controllers.py)

    A shallow embedding of [OAuth2ProviderController]: every route handler is
    a function from the request and the current state (database tables and
    HTTP session) to a new state and either a response or a raised exception.
    The oauthlib server obtained from [get_oauth2_server], the validator
    behind it and the model methods of the tokens are not part of the
    controller file; they are modelled from the specification and marked as
    such. *)

From Stdlib Require Import ZArith String Ascii List Bool Lia.
From stdpp Require Import base option list strings pretty gmap.

Local Open Scope string_scope.
Local Open Scope Z_scope.
Local Open Scope list_scope.

(** ** Strings *)

(** Python's [s.split(' ', 1)]: one cut at the first space, if there is one. *)
Fixpoint split_once (s : string) : list string :=
  match s with
  | EmptyString => [EmptyString]
  | String c r =>
      if Ascii.eqb c " "%char then [EmptyString; r]
      else match split_once r with
           | h :: t => String c h :: t
           | [] => [String c EmptyString]
           end
  end.

(** A space-separated scope string as the list of its scope codes. *)
Fixpoint scope_to_list (s : string) : list string :=
  match s with
  | EmptyString => []
  | String c r =>
      if Ascii.eqb c " "%char then scope_to_list r
      else match r with
           | EmptyString => [String c EmptyString]
           | String d _ =>
               if Ascii.eqb d " "%char then String c EmptyString :: scope_to_list r
               else match scope_to_list r with
                    | h :: t => String c h :: t
                    | [] => [String c EmptyString]
                    end
           end
  end.

(** [' '.join(codes)] *)
Definition join_scopes (codes : list string) : string := String.concat " " codes.

(** Membership of a string in a list of strings, [x in xs]. *)
Definition mem (x : string) (xs : list string) : bool :=
  existsb (String.eqb x) xs.

(** Optional values compared the way a search domain compares them: a missing
    value ([None]) only matches a field that is itself unset. *)
Definition opt_eqb (a b : option string) : bool :=
  match a, b with
  | Some x, Some y => String.eqb x y
  | None, None => true
  | _, _ => false
  end.

(** ** JSON data handed to [json.dumps] *)

#[local] Unset Elimination Schemes.
Inductive json : Type :=
| JNull
| JNum (z : Z)
| JStr (s : string)
| JObj (members : list (string * json)).
#[local] Set Elimination Schemes.

(** Dictionary access on an association list: the first binding of the key. *)
Fixpoint assoc {A : Type} (k : string) (d : list (string * A)) : option A :=
  match d with
  | [] => None
  | (k', v) :: d' => if String.eqb k k' then Some v else assoc k d'
  end.

(** ** Data model *)

Module Scope.
Record t : Type := mk {
  code : string;
  description : string;
  (** the fields exposed, per resource type (model name) *)
  field_ids : list (string * list string)
}.
End Scope.

Module Client.
Record t : Type := mk {
  identifier : string;
  secret : option string;
  redirect_uris : list string;
  grant_types : list string;
  scope_ids : list Scope.t;
  skip_authorization : bool;
  token_expires_in : Z;
  name : string
}.
End Client.

Module Token.
Record t : Type := mk {
  token : string;
  refresh_token : option string;
  client_id : Client.t;
  user_id : option Z;
  scope_ids : list Scope.t;
  expires_at : Z;
  revoked : bool
}.

Definition revoke (tk : t) : t :=
  mk (token tk) (refresh_token tk) (client_id tk) (user_id tk)
     (scope_ids tk) (expires_at tk) true.
End Token.

Module AuthorizationCode.
Record t : Type := mk {
  code : string;
  client_id : Client.t;
  user_id : Z;
  scope_ids : list Scope.t;
  redirect_uri : string;
  expires_at : Z;
  consumed : bool
}.

Definition consume (c : t) : t :=
  mk (code c) (client_id c) (user_id c) (scope_ids c) (redirect_uri c)
     (expires_at c) true.
End AuthorizationCode.

(** A row of some resource table, as exposed through the data endpoints. *)
Record Row : Type := {
  row_model : string;
  row_id : Z;
  row_values : list (string * json)
}.

(** An end user known to the user-authentication collaborator. *)
Record User : Type := {
  login : string;
  password : string;
  user_ref : Z
}.

(** The tables reached through [http.request.env]. *)
Record Store : Type := {
  clients : list Client.t;          (* oauth.provider.client *)
  tokens : list Token.t;            (* oauth.provider.token *)
  codes : list AuthorizationCode.t; (* oauth.provider.authorization.code *)
  models : list string;             (* ir.model, by model name *)
  rows : list Row;
  users : list User
}.

Definition set_tokens (s : Store) (tks : list Token.t) : Store :=
  {| clients := clients s; tokens := tks; codes := codes s;
     models := models s; rows := rows s; users := users s |}.

Definition set_codes (s : Store) (cs : list AuthorizationCode.t) : Store :=
  {| clients := clients s; tokens := tokens s; codes := cs;
     models := models s; rows := rows s; users := users s |}.

(** *** Searches

    One definition per search domain used by the controller. A recordset is
    the list of matching records; it is falsy exactly when empty. *)

(** [env['oauth.provider.client'].search([('identifier', '=', client_id)])] *)
Definition search_client (s : Store) (client_id : option string) : list Client.t :=
  List.filter (fun c => opt_eqb client_id (Some (Client.identifier c))) (clients s).

(** [env['oauth.provider.token'].search([('token', '=', access_token)])] *)
Definition search_token (s : Store) (access_token : option string) : list Token.t :=
  List.filter (fun tk => opt_eqb access_token (Some (Token.token tk))) (tokens s).

(** [env['oauth.provider.token'].search([('refresh_token', '=', token)])] *)
Definition search_refresh_token (s : Store) (token : option string) : list Token.t :=
  List.filter (fun tk => opt_eqb token (Token.refresh_token tk)) (tokens s).

(** [search([('client_id.identifier', '=', client_id), ('refresh_token', '=', refresh_token)])] *)
Definition search_client_refresh_token (s : Store)
    (client_id refresh_token : option string) : list Token.t :=
  List.filter (fun tk =>
                 opt_eqb client_id (Some (Client.identifier (Token.client_id tk)))
                 && opt_eqb refresh_token (Token.refresh_token tk))
              (tokens s).

(** [search([('client_id.identifier', '=', client_id), ('code', '=', code)])] *)
Definition search_client_code (s : Store)
    (client_id code : option string) : list AuthorizationCode.t :=
  List.filter (fun c =>
                 opt_eqb client_id
                   (Some (Client.identifier (AuthorizationCode.client_id c)))
                 && opt_eqb code (Some (AuthorizationCode.code c)))
              (codes s).

(** [env['ir.model'].search([('model', '=', model)])] *)
Definition search_model (s : Store) (model : option string) : list string :=
  List.filter (fun m => opt_eqb model (Some m)) (models s).

(** ** HTTP layer *)

(** The incoming request, [http.request.httprequest]: [values] merges the query
    string and the form data, and is where the keyword arguments of a route
    handler come from. *)
Record Request : Type := {
  base_url : string;
  method : string;
  headers : list (string * string);
  values : list (string * string)
}.

(** The keyword argument [k] of a handler; [None] is the Python default. *)
Definition param (r : Request) (k : string) : option string := assoc k (values r).

(** What is handed to oauthlib: uri, http_method, body (the url-encoded
    [values], kept here as the list of its pairs) and headers. *)
Record RequestInformation : Type := {
  uri : string;
  http_method : string;
  body : list (string * string);
  info_headers : list (string * string)
}.

Definition _get_request_information (r : Request) : RequestInformation :=
  {| uri := base_url r; http_method := method r;
     body := values r; info_headers := headers r |}.

(** Primitive (picklable) values: a string or [None]. *)
Inductive pyval : Type :=
| PNone
| PStr (s : string).

Definition of_option (o : option string) : pyval :=
  match o with Some s => PStr s | None => PNone end.

Definition to_option (v : pyval) : option string :=
  match v with PStr s => Some s | PNone => None end.

(** [http.request.session], as far as the controller uses it: the two keys it
    reads and writes, each absent ([None]) or holding what [authorize] put
    there, a list of scope codes and a dictionary of primitive values. *)
Record Session : Type := {
  oauth_scopes : option (list string);
  oauth_credentials : option (gmap string pyval)
}.

Record State : Type := {
  store : Store;
  session : Session
}.

Definition set_store (st : State) (s : Store) : State :=
  {| store := s; session := session st |}.

(** The clock, the logged-in user and the values drawn from the random source
    while one request is served. *)
Record Ctx : Type := {
  now : Z;
  uid : Z;
  fresh_code : string;
  fresh_token : string;
  fresh_refresh_token : string
}.

Inductive page : Type :=
| authorization_error (title message : string)
| authorization (oauth_client : string) (oauth_scopes : list Scope.t).

Inductive response : Type :=
| Render (p : page)                        (* http.request.render *)
| Redirect (location : string) (code : Z)  (* werkzeug.utils.redirect *)
| BaseResponse (body : option json) (status : Z)
    (headers : list (string * string)).    (* werkzeug.wrappers.BaseResponse *)

Inductive exn : Type :=
| FatalClientError (error description : string)
| OAuth2Error (error description : string)
| KeyError (key : string)
| ValueError (message : string).

Inductive result : Type :=
| Return (r : response)
| Raise (e : exn).

(** [_json_response(data, status)] with the default headers. *)
Definition _json_response (data : json) (status : Z) : response :=
  BaseResponse (Some data) status [("Content-Type", "application/json")].

Definition error_body (e : string) : json := JObj [("error", JStr e)].

(** ** The OAuth2 server behind [client.get_oauth2_server()]

    The server object and its validator live outside the controller file. The
    definitions of this part follow the specification of the protocol engine;
    each takes the client the server was built for as an argument. *)

Definition scope_codes (scs : list Scope.t) : list string := map Scope.code scs.

(** The scope records of [scs] whose code is one of [codes]. *)
Definition scopes_in (codes : list string) (scs : list Scope.t) : list Scope.t :=
  List.filter (fun record => mem (Scope.code record) codes) scs.

(** What [validate_authorization_request] returns next to the scopes: the four
    primitive entries and the full request object. *)
Record Credentials : Type := {
  cr_client_id : pyval;
  cr_redirect_uri : pyval;
  cr_response_type : pyval;
  cr_state : pyval;
  cr_request : RequestInformation
}.

(** Modelled from the spec: the redirect URI check of the authorization
    request validator, missing with [oauth2/validator.py]. A redirect URI that
    is present must be exactly one of the registered ones; an absent one falls
    back on the first registered one. [None]: no verified redirect URI. *)
Definition verified_redirect_uri (client : Client.t) (redirect_uri : option string)
    : option string :=
  match redirect_uri with
  | Some u => if mem u (Client.redirect_uris client) then Some u else None
  | None => head (Client.redirect_uris client)
  end.

(** Modelled from the spec: [validate_authorization_request] of the server,
    missing with [oauth2/validator.py]. Validation order of the specification:
    unknown client and unverified redirect URI are fatal; an unsupported or
    unpermitted response type is a protocol error; the requested scopes are
    cut down to the client's allowed ones and must not end up empty. *)
Definition validate_authorization_request (client : Client.t)
    (info : RequestInformation) : exn + (list string * Credentials) :=
  if negb (opt_eqb (assoc "client_id" (body info)) (Some (Client.identifier client)))
  then inl (FatalClientError "invalid_client_id" "Invalid client_id parameter value.")
  else
    match verified_redirect_uri client (assoc "redirect_uri" (body info)) with
    | None => inl (FatalClientError "mismatching_redirect_uri" "Mismatching redirect URI.")
    | Some redirect_uri =>
        if negb (opt_eqb (assoc "response_type" (body info)) (Some "code")
                 && mem "authorization_code" (Client.grant_types client))
        then inl (OAuth2Error "unsupported_response_type" "")
        else
          let requested :=
            match assoc "scope" (body info) with
            | Some s => scope_to_list s
            | None => []
            end in
          let scopes :=
            List.filter (fun c => mem c (scope_codes (Client.scope_ids client)))
                        requested in
          match scopes with
          | [] => inl (OAuth2Error "invalid_scope" "")
          | _ =>
              inr (scopes,
                   {| cr_client_id := PStr (Client.identifier client);
                      cr_redirect_uri := PStr redirect_uri;
                      cr_response_type := of_option (assoc "response_type" (body info));
                      cr_state := of_option (assoc "state" (body info));
                      cr_request := info |})
          end
    end.

(** Lifetime of an authorization code, in seconds. *)
Definition code_expires_in : Z := 600.

(** Modelled from the spec: [create_authorization_response] of the server,
    missing with [oauth2/validator.py]. On approval an authorization code is
    created for the logged-in user with the granted scopes and the redirect
    URI used, and the answer is a 302 redirect to that URI carrying [code]
    (and [state] if present). Without a redirect URI in the credentials there
    is nowhere safe to redirect to: fatal. *)
Definition create_authorization_response (ctx : Ctx) (s : Store) (client : Client.t)
    (scopes : list string) (credentials : gmap string pyval)
    : Store * (exn + (list (string * string) * option json * Z)) :=
  match credentials !! "redirect_uri" with
  | Some (PStr redirect_uri) =>
      let c := AuthorizationCode.mk (fresh_code ctx) client (uid ctx)
                 (scopes_in scopes (Client.scope_ids client)) redirect_uri
                 (now ctx + code_expires_in) false in
      let state :=
        match credentials !! "state" with
        | Some (PStr st) => "&state=" +:+ st
        | _ => ""
        end in
      (set_codes s (codes s ++ [c]),
       inr ([("Location", redirect_uri +:+ "?code=" +:+ fresh_code ctx +:+ state)],
            None, 302))
  | _ => (s, inl (FatalClientError "missing_redirect_uri" "Missing redirect URI."))
  end.

(** *** Grant engine *)

Definition token_headers : list (string * string) :=
  [("Content-Type", "application/json"); ("Cache-Control", "no-store");
   ("Pragma", "no-cache")].

(** The structured error codes of the token endpoint. *)
Definition grant_error_codes : list string :=
  ["invalid_request"; "invalid_client"; "invalid_grant"; "unauthorized_client";
   "unsupported_grant_type"; "invalid_scope"].

(** The encoder's status for an error code. *)
Definition error_status (e : string) : Z :=
  if String.eqb e "invalid_client" then 401 else 400.

Definition token_error (e : string) : list (string * string) * json * Z :=
  (token_headers, error_body e, error_status e).

Definition token_success (tk : Token.t) (expires_in : Z)
    : list (string * string) * json * Z :=
  (token_headers,
   JObj ([("access_token", JStr (Token.token tk)); ("token_type", JStr "Bearer");
          ("expires_in", JNum expires_in)]
         ++ match Token.refresh_token tk with
            | Some r => [("refresh_token", JStr r)]
            | None => []
            end
         ++ [("scope", JStr (join_scopes (scope_codes (Token.scope_ids tk))))]),
   200).

(** [findByCode] and [findByRefreshToken] of the store: point queries. *)
Definition find_code (s : Store) (v : string) : option AuthorizationCode.t :=
  List.find (fun c => String.eqb (AuthorizationCode.code c) v) (codes s).

Definition find_refresh_token (s : Store) (v : string) : option Token.t :=
  List.find (fun tk => opt_eqb (Some v) (Token.refresh_token tk)) (tokens s).

Definition find_token (s : Store) (v : string) : option Token.t :=
  List.find (fun tk => String.eqb (Token.token tk) v) (tokens s).

(** [markConsumed]: every code record of that value gets its flag set. *)
Definition mark_consumed (v : string) (cs : list AuthorizationCode.t)
    : list AuthorizationCode.t :=
  map (fun c => if String.eqb (AuthorizationCode.code c) v
                then AuthorizationCode.consume c else c) cs.

(** A code can be exchanged while it is neither consumed nor expired, by the
    client it was issued to, with the redirect URI it was issued for. *)
Definition code_usable (ctx : Ctx) (client : Client.t) (redirect_uri : option string)
    (c : AuthorizationCode.t) : bool :=
  negb (AuthorizationCode.consumed c)
  && (now ctx <? AuthorizationCode.expires_at c)
  && opt_eqb redirect_uri (Some (AuthorizationCode.redirect_uri c))
  && String.eqb (Client.identifier (AuthorizationCode.client_id c))
                (Client.identifier client).

(** What the controller puts in [credentials] for [create_token_response]. *)
Record TokenCredentials : Type := {
  cred_scope : option string;
  cred_user_id : option Z
}.

Definition issue (ctx : Ctx) (client : Client.t) (expires_in : Z) (refresh : bool)
    (user : option Z) (scs : list Scope.t) : Token.t :=
  Token.mk (fresh_token ctx)
           (if refresh then Some (fresh_refresh_token ctx) else None)
           client user scs (now ctx + expires_in) false.

Definition requested_scopes (info : RequestInformation) : list string :=
  match assoc "scope" (body info) with
  | Some s => scope_to_list s
  | None => []
  end.

(** Modelled from the spec: the authorization_code grant of the grant engine,
    missing with [oauth2/validator.py]. The code is looked up by value; it
    fails with invalid_grant if absent, expired, already consumed, or on a
    redirect URI or client mismatch. Otherwise the code is marked consumed
    together with the issuance of an access and refresh token bound to the
    code's user and granted scopes. *)
Definition authorization_code_grant (ctx : Ctx) (s : Store) (client : Client.t)
    (expires_in : Z) (info : RequestInformation)
    : Store * (list (string * string) * json * Z) :=
  match assoc "code" (body info) with
  | Some v =>
      match find_code s v with
      | Some c =>
          if code_usable ctx client (assoc "redirect_uri" (body info)) c then
            let tk := issue ctx client expires_in true
                        (Some (AuthorizationCode.user_id c))
                        (AuthorizationCode.scope_ids c) in
            (set_tokens (set_codes s (mark_consumed v (codes s))) (tokens s ++ [tk]),
             token_success tk expires_in)
          else (s, token_error "invalid_grant")
      | None => (s, token_error "invalid_grant")
      end
  | None => (s, token_error "invalid_grant")
  end.

(** The previous access token is invalidated when it is refreshed. *)
Definition invalidate (v : string) (tks : list Token.t) : list Token.t :=
  map (fun tk => if String.eqb (Token.token tk) v then Token.revoke tk else tk) tks.

(** Modelled from the spec: the refresh_token grant of the grant engine,
    missing with [oauth2/validator.py]. The token is looked up by refresh
    value; invalid_grant if absent, revoked or issued to another client;
    invalid_scope unless a requested scope stays within the original grant.
    The previous access token is invalidated and the refresh token rotated. *)
Definition refresh_token_grant (ctx : Ctx) (s : Store) (client : Client.t)
    (expires_in : Z) (info : RequestInformation)
    : Store * (list (string * string) * json * Z) :=
  match assoc "refresh_token" (body info) with
  | Some v =>
      match find_refresh_token s v with
      | Some old =>
          if Token.revoked old
             || negb (String.eqb (Client.identifier (Token.client_id old))
                                 (Client.identifier client))
          then (s, token_error "invalid_grant")
          else
            let original := scope_codes (Token.scope_ids old) in
            let granted :=
              match assoc "scope" (body info) with
              | Some sc =>
                  if forallb (fun c => mem c original) (scope_to_list sc)
                  then Some (scopes_in (scope_to_list sc) (Token.scope_ids old))
                  else None
              | None => Some (Token.scope_ids old)
              end in
            match granted with
            | Some scs =>
                let tk := issue ctx client expires_in true (Token.user_id old) scs in
                (set_tokens s (invalidate (Token.token old) (tokens s) ++ [tk]),
                 token_success tk expires_in)
            | None => (s, token_error "invalid_scope")
            end
      | None => (s, token_error "invalid_grant")
      end
  | None => (s, token_error "invalid_grant")
  end.

(** Modelled from the spec: the client_credentials grant, missing with
    [oauth2/validator.py]. Confidential clients only (unauthorized_client for
    a public one); the token has no user and no refresh token; requested
    scopes outside the client's allowed set are dropped. *)
Definition client_credentials_grant (ctx : Ctx) (s : Store) (client : Client.t)
    (expires_in : Z) (info : RequestInformation)
    : Store * (list (string * string) * json * Z) :=
  match Client.secret client with
  | None => (s, token_error "unauthorized_client")
  | Some _ =>
      let tk := issue ctx client expires_in false None
                  (scopes_in (requested_scopes info) (Client.scope_ids client)) in
      (set_tokens s (tokens s ++ [tk]), token_success tk expires_in)
  end.

(** The user-authentication collaborator of the password grant. *)
Definition authenticate (s : Store) (username pwd : option string) : option Z :=
  match username, pwd with
  | Some u, Some p =>
      option_map user_ref
        (List.find (fun usr => String.eqb (login usr) u && String.eqb (password usr) p)
                   (users s))
  | _, _ => None
  end.

(** Modelled from the spec: the password grant, missing with
    [oauth2/validator.py]. The end-user credentials are verified by the
    user-authentication collaborator; on success the token is bound to the
    verified user. The specification names no code for a failed verification;
    invalid_grant is used. *)
Definition password_grant (ctx : Ctx) (s : Store) (client : Client.t)
    (expires_in : Z) (info : RequestInformation)
    : Store * (list (string * string) * json * Z) :=
  match authenticate s (assoc "username" (body info)) (assoc "password" (body info)) with
  | Some user =>
      let tk := issue ctx client expires_in true (Some user)
                  (scopes_in (requested_scopes info) (Client.scope_ids client)) in
      (set_tokens s (tokens s ++ [tk]), token_success tk expires_in)
  | None => (s, token_error "invalid_grant")
  end.

(** Modelled from the spec: [create_token_response] of the server built by
    [get_oauth2_server(token_expires_in=...)], missing with
    [oauth2/validator.py]: a closed dispatch on the grant type, an unknown tag
    yielding unsupported_grant_type. Every outcome is a JSON response. *)
Definition create_token_response (ctx : Ctx) (s : Store) (client : Client.t)
    (expires_in : Z) (info : RequestInformation) (credentials : TokenCredentials)
    : Store * (list (string * string) * json * Z) :=
  match assoc "grant_type" (body info) with
  | Some grant_type =>
      if String.eqb grant_type "authorization_code"
      then authorization_code_grant ctx s client expires_in info
      else if String.eqb grant_type "refresh_token"
      then refresh_token_grant ctx s client expires_in info
      else if String.eqb grant_type "client_credentials"
      then client_credentials_grant ctx s client expires_in info
      else if String.eqb grant_type "password"
      then password_grant ctx s client expires_in info
      else (s, token_error "unsupported_grant_type")
  | None => (s, token_error "unsupported_grant_type")
  end.

(** *** Introspection and revocation *)

(** The bearer token a request presents: the [Authorization: Bearer] header,
    or else the [access_token] value. *)
Definition bearer_token (info : RequestInformation) : option string :=
  match assoc "Authorization" (info_headers info) with
  | Some h =>
      match split_once h with
      | [scheme; tk] =>
          if String.eqb scheme "Bearer" then Some tk
          else assoc "access_token" (body info)
      | _ => assoc "access_token" (body info)
      end
  | None => assoc "access_token" (body info)
  end.

(** A token is valid iff now < expires-at and it is not revoked. *)
Definition token_valid (now : Z) (tk : Token.t) : bool :=
  (now <? Token.expires_at tk) && negb (Token.revoked tk).

(** Modelled from the spec: [verify_request] of the server, missing with
    [oauth2/validator.py]: the presented bearer token is valid iff it is
    found, not expired and not revoked. Returns the verdict and the request
    as oauthlib saw it. *)
Definition verify_request (ctx : Ctx) (s : Store) (info : RequestInformation)
    : bool * RequestInformation :=
  (match bearer_token info with
   | Some v =>
       match find_token s v with
       | Some tk => token_valid (now ctx) tk
       | None => false
       end
   | None => false
   end, info).

(** Modelled from the spec: [create_revocation_response] of the server,
    missing with [oauth2/validator.py]: the token named in the request, found
    by access or by refresh value, is invalidated; the answer is 200 with an
    empty body. [client] is the client the server was built for, the one of
    the token record the controller found. *)
Definition create_revocation_response (s : Store) (client : Client.t)
    (info : RequestInformation)
    : Store * (list (string * string) * option json * Z) :=
  let v := assoc "token" (body info) in
  (set_tokens s
     (map (fun tk => if opt_eqb v (Some (Token.token tk))
                        || opt_eqb v (Token.refresh_token tk)
                     then Token.revoke tk else tk) (tokens s)),
   ([], None, 200)).

(** The fields of [model] that the token's granted scopes authorize. *)
Definition allowed_fields (tk : Token.t) (model : string) : list string :=
  flat_map (fun sc => match assoc model (Scope.field_ids sc) with
                      | Some fs => fs
                      | None => []
                      end) (Token.scope_ids tk).

Definition filter_fields (allowed : list string) (vals : list (string * json))
    : list (string * json) :=
  List.filter (fun kv => mem (fst kv) allowed) vals.

(** Modelled from the spec: [token.get_data_for_model(model, res_id=None)], a
    method of the token model that is not in the controller file. Only the
    fields authorized by the token's scopes for that resource type are
    returned: those of the record [res_id], or, without [res_id], those of
    every record of the model keyed by record id. Nothing authorized gives an
    empty result, not an error. *)
Definition get_data_for_model (s : Store) (tk : Token.t) (model : string)
    (res_id : option Z) : list (string * json) :=
  let allowed := allowed_fields tk model in
  let of_model := List.filter (fun r => String.eqb (row_model r) model) (rows s) in
  match res_id with
  | Some i =>
      match List.find (fun r => row_id r =? i) of_model with
      | Some r => filter_fields allowed (row_values r)
      | None => []
      end
  | None =>
      match allowed with
      | [] => []
      | _ => map (fun r => (pretty (row_id r), JObj (filter_fields allowed (row_values r))))
                 of_model
      end
  end.

(** ** The controller *)

(** [http.request.session.get('oauth_credentials', {}).get('client_id')] *)
Definition session_client_id (sess : Session) : option string :=
  match oauth_credentials sess with
  | Some d =>
      match d !! "client_id" with
      | Some v => to_option v
      | None => None
      end
  | None => None
  end.

Definition unknown_client_page : page :=
  authorization_error "Unknown Client Identifier!" "This client identifier is invalid.".

Definition invalid_or_expired_token : response :=
  _json_response (error_body "invalid_or_expired_token") 401.

(** The two [except] clauses of [authorize]: a fatal client error shows its
    description, any other OAuth2 error a fixed message; anything else keeps
    propagating. *)
Definition except_oauth2 (r : result) : result :=
  match r with
  | Raise (FatalClientError error description) =>
      Return (Render (authorization_error ("Error: " +:+ error) description))
  | Raise (OAuth2Error error _) =>
      Return (Render (authorization_error ("Error: " +:+ error)
                "An unknown error occured! Please contact your administrator"))
  | _ => r
  end.

(** Reading a field off a non-empty recordset reads it off its first record;
    identifiers, codes and token values are unique keys of their tables. *)

Section Controller.

(** [token.generate_user_id()], a method of the token model that is not in
    the controller file; only [tokeninfo] calls it. *)
Variable generate_user_id : Token.t -> string.

Definition _check_access_token (ctx : Ctx) (st : State) (req : Request)
    (access_token : option string) : option Token.t :=
  match search_token (store st) access_token with
  | [] => None
  | token :: _ =>
      let '(valid, oauthlib_request) :=
        verify_request ctx (store st) (_get_request_information req) in
      if valid then Some token else None
  end.

(** POST /oauth2/authorize *)
Definition authorize_post (ctx : Ctx) (st : State) (req : Request) : State * result :=
  match search_client (store st) (session_client_id (session st)) with
  | [] => (st, Return (Render unknown_client_page))
  | client :: _ =>
      match oauth_scopes (session st) with
      | None => (st, Raise (KeyError "oauth_scopes"))
      | Some scopes =>
          match oauth_credentials (session st) with
          | None => (st, Raise (KeyError "oauth_credentials"))
          | Some credentials =>
              match create_authorization_response ctx (store st) client
                      scopes credentials with
              | (s', inl e) => (set_store st s', Raise e)
              | (s', inr (headers, body, status)) =>
                  match assoc "Location" headers with
                  | Some location => (set_store st s', Return (Redirect location status))
                  | None => (set_store st s', Raise (KeyError "Location"))
                  end
              end
          end
      end
  end.

(** The dictionary [authorize] keeps under [oauth_credentials]: four
    entries picked from the validator's credentials. *)
Definition stored_credentials (credentials : Credentials) : gmap string pyval :=
  <["client_id" := cr_client_id credentials]>
  (<["redirect_uri" := cr_redirect_uri credentials]>
  (<["response_type" := cr_response_type credentials]>
  (<["state" := cr_state credentials]> ∅))).

(** The state once [authorize] has written both session keys. *)
Definition remember (st : State) (scopes : list string) (credentials : Credentials)
    : State :=
  {| store := store st;
     session := {| oauth_scopes := Some scopes;
                   oauth_credentials := Some (stored_credentials credentials) |} |}.

(** GET /oauth2/authorize *)
Definition authorize (ctx : Ctx) (st : State) (req : Request) : State * result :=
  match search_client (store st) (param req "client_id") with
  | [] => (st, Return (Render unknown_client_page))
  | client :: _ =>
      match validate_authorization_request client (_get_request_information req) with
      | inl e => (st, except_oauth2 (Raise e))
      | inr (scopes, credentials) =>
          let st1 := remember st scopes credentials in
          if Client.skip_authorization client then
            let '(st2, r) := authorize_post ctx st1 req in
            (st2, except_oauth2 r)
          else
            (st1, Return (Render (authorization (Client.name client)
                                    (scopes_in scopes (Client.scope_ids client)))))
      end
  end.

(** The client identifier [token] searches with: the parameter, or, when it
    is not given, the one kept in the session. *)
Definition token_client_id (st : State) (req : Request) : option string :=
  match param req "client_id" with
  | None => session_client_id (session st)
  | Some client_id => Some client_id
  end.

Definition invalid_client_id : response :=
  _json_response (error_body "invalid_client_id") 401.

(** POST /oauth2/token *)
Definition token (ctx : Ctx) (st : State) (req : Request) : State * result :=
  let client_id := token_client_id st req in
  match search_client (store st) client_id with
  | [] => (st, Return invalid_client_id)
  | client :: _ =>
      let credentials := {| cred_scope := param req "scope"; cred_user_id := None |} in
      let credentials :=
        match search_client_code (store st) client_id (param req "code") with
        | existing_code :: _ =>
            {| cred_scope := cred_scope credentials;
               cred_user_id := Some (AuthorizationCode.user_id existing_code) |}
        | [] => credentials
        end in
      let credentials :=
        match search_client_refresh_token (store st) client_id
                (param req "refresh_token") with
        | existing_token :: _ =>
            {| cred_scope := cred_scope credentials;
               cred_user_id := Token.user_id existing_token |}
        | [] => credentials
        end in
      let '(s', (headers, body, status)) :=
        create_token_response ctx (store st) client (Client.token_expires_in client)
          (_get_request_information req) credentials in
      (set_store st s', Return (BaseResponse (Some body) status headers))
  end.

(** GET /oauth2/tokeninfo *)
Definition tokeninfo (ctx : Ctx) (st : State) (req : Request) : State * result :=
  match _check_access_token ctx st req (param req "access_token") with
  | None => (st, Return invalid_or_expired_token)
  | Some token =>
      let token_lifetime := Token.expires_at token - now ctx in
      let data :=
        [("audience", JStr (Client.identifier (Token.client_id token)));
         ("scopes", JStr (join_scopes (scope_codes (Token.scope_ids token))));
         ("expires_in", JNum token_lifetime)] in
      let user_data :=
        get_data_for_model (store st) token "res.users" (Token.user_id token) in
      match assoc "id" user_data with
      | Some _ =>
          let data := data ++ [("user_id", JStr (generate_user_id token))] in
          match assoc "name" user_data with
          | None => (st, Raise (KeyError "name"))
          | Some name =>
              match assoc "login" user_data with
              | None => (st, Raise (KeyError "login"))
              | Some email =>
                  (st, Return (_json_response
                                 (JObj (data ++ [("name", name); ("email", email)]))
                                 200))
              end
          end
      | None => (st, Return (_json_response (JObj data) 200))
      end
  end.

(** GET /oauth2/userinfo *)
Definition userinfo (ctx : Ctx) (st : State) (req : Request) : State * result :=
  let auth :=
    match assoc "Authorization" (headers req) with
    | Some h => h
    | None => " "
    end in
  match split_once auth with
  | [auth_type; auth_string] =>
      let access_token :=
        if negb (String.eqb auth_type "Basic") then Some auth_string
        else param req "access_token" in
      match _check_access_token ctx st req access_token with
      | None => (st, Return invalid_or_expired_token)
      | Some token =>
          let data :=
            get_data_for_model (store st) token "res.users" (Token.user_id token) in
          (st, Return (_json_response (JObj data) 200))
      end
  | _ => (st, Raise (ValueError "not enough values to unpack"))
  end.

(** GET /oauth2/otherinfo. The search is non-empty only for a [model] that was
    given, so the second component of the match is then [Some]. *)
Definition otherinfo (ctx : Ctx) (st : State) (req : Request) : State * result :=
  match _check_access_token ctx st req (param req "access_token") with
  | None => (st, Return invalid_or_expired_token)
  | Some token =>
      match search_model (store st) (param req "model"), param req "model" with
      | _ :: _, Some model =>
          (st, Return (_json_response
                         (JObj (get_data_for_model (store st) token model None)) 200))
      | _, _ => (st, Return (_json_response (error_body "invalid_model") 400))
      end
  end.

(** The token record [revoke_token] works on: found by access-token value,
    or else by refresh-token value. *)
Definition revoke_lookup (s : Store) (token : option string) : list Token.t :=
  match search_token s token with
  | [] => search_refresh_token s token
  | db_token => db_token
  end.

(** POST /oauth2/revoke_token *)
Definition revoke_token (ctx : Ctx) (st : State) (req : Request) : State * result :=
  match revoke_lookup (store st) (param req "token") with
  | [] => (st, Return invalid_or_expired_token)
  | db_token :: _ =>
      let '(s', (headers, body, status)) :=
        create_revocation_response (store st) (Token.client_id db_token)
          (_get_request_information req) in
      (set_store st s', Return (BaseResponse body status headers))
  end.

(** *** Serving a sequence of requests

    The routes of the controller that reach the store, and the store after a
    list of calls, each made with its own session. *)
Inductive Route : Type :=
| GET_authorize
| POST_authorize
| POST_token
| GET_tokeninfo
| GET_userinfo
| GET_otherinfo
| POST_revoke_token.

Definition dispatch (route : Route) : Ctx -> State -> Request -> State * result :=
  match route with
  | GET_authorize => authorize
  | POST_authorize => authorize_post
  | POST_token => token
  | GET_tokeninfo => tokeninfo
  | GET_userinfo => userinfo
  | GET_otherinfo => otherinfo
  | POST_revoke_token => revoke_token
  end.

Record Call : Type := {
  call_route : Route;
  call_ctx : Ctx;
  call_session : Session;
  call_request : Request
}.

Definition serve (s : Store) (c : Call) : Store :=
  store (fst (dispatch (call_route c) (call_ctx c)
                {| store := s; session := call_session c |} (call_request c))).

Definition serve_all (s : Store) (calls : list Call) : Store :=
  fold_left serve calls s.

End Controller.

(** The outcome [r] is an error response with the structured code [e]. *)
Definition fails_with (e : string) (r : result) : Prop :=
  ∃ status headers, r = Return (BaseResponse (Some (error_body e)) status headers).

(** The outcome [r] is a response with this HTTP status. *)
Definition has_status (status : Z) (r : result) : Prop :=
  ∃ body headers, r = Return (BaseResponse body status headers).

(** What the grant engine may answer on store [s]: a 200 token body, or,
    with the store untouched, one of the structured error codes under the
    status the encoder gives it. *)
Definition engine_outcome (s : Store)
    (out : Store * (list (string * string) * json * Z)) : Prop :=
  (exists s' v rest,
     out = (s', (token_headers, JObj (("access_token", JStr v) :: rest), 200)))
  \/ (exists e,
        In e grant_error_codes
        /\ out = (s, (token_headers, error_body e, error_status e))
        /\ (error_status e = 400 \/ error_status e = 401)).

(** The code of value [v] is on record as consumed. *)
Definition consumed_code (v : string) (s : Store) : Prop :=
  exists c, find_code s v = Some c /\ AuthorizationCode.consumed c = true.

(** The two ways [token] turns down a code it cannot exchange. *)
Definition unknown_client_401 : result :=
  Return (BaseResponse (Some (JObj [("error", JStr "invalid_client_id")])) 401
            [("Content-Type", "application/json")]).

Definition invalid_grant_400 : result :=
  Return (BaseResponse (Some (JObj [("error", JStr "invalid_grant")])) 400
            [("Content-Type", "application/json"); ("Cache-Control", "no-store");
             ("Pragma", "no-cache")]).

(** ** A sample deployment

    One client with a consent page, one trusted client that skips it, one end
    user; used to run the handlers on concrete requests. *)

Definition profile : Scope.t :=
  Scope.mk "profile" "Basic profile" [("res.users", ["id"; "name"; "login"])].

Definition app1 : Client.t :=
  Client.mk "app1" (Some "s3cret") ["https://app1/cb"]
    ["authorization_code"; "refresh_token"] [profile] false 3600 "App One".

Definition trusted : Client.t :=
  Client.mk "trusted" (Some "s3cret") ["https://trusted/cb"]
    ["authorization_code"] [profile] true 3600 "Trusted".

Definition alice : Row :=
  {| row_model := "res.users"; row_id := 7;
     row_values := [("id", JNum 7); ("name", JStr "Alice"); ("login", JStr "alice");
                    ("lang", JStr "en_US")] |}.

Definition store0 : Store :=
  {| clients := [app1; trusted]; tokens := []; codes := [];
     models := ["res.users"]; rows := [alice];
     users := [ {| login := "alice"; password := "pw"; user_ref := 7 |} ] |}.

Definition no_session : Session :=
  {| oauth_scopes := None; oauth_credentials := None |}.

Definition st0 : State := {| store := store0; session := no_session |}.

Definition ctx0 : Ctx :=
  {| now := 1000; uid := 7; fresh_code := "c0de"; fresh_token := "tok1";
     fresh_refresh_token := "ref1" |}.

Definition ctx1 : Ctx :=
  {| now := 1100; uid := 7; fresh_code := "c0de2"; fresh_token := "tok2";
     fresh_refresh_token := "ref2" |}.

Definition GET (url : string) (hs vs : list (string * string)) : Request :=
  {| base_url := url; method := "GET"; headers := hs; values := vs |}.

Definition POST (url : string) (hs vs : list (string * string)) : Request :=
  {| base_url := url; method := "POST"; headers := hs; values := vs |}.

(** GET /oauth2/authorize for the trusted client. *)
Definition authorize_trusted : Request :=
  GET "/oauth2/authorize" []
    [("client_id", "trusted"); ("response_type", "code");
     ("redirect_uri", "https://trusted/cb"); ("scope", "profile email");
     ("state", "xyz")].

(** GET /oauth2/authorize for the client with a consent page. *)
Definition authorize_app1 : Request :=
  GET "/oauth2/authorize" []
    [("client_id", "app1"); ("response_type", "code");
     ("redirect_uri", "https://app1/cb"); ("scope", "profile"); ("state", "s")].

(** GET /oauth2/authorize naming a client nobody registered. *)
Definition authorize_unknown : Request :=
  GET "/oauth2/authorize" []
    [("client_id", "nobody"); ("response_type", "code");
     ("redirect_uri", "https://evil/cb"); ("scope", "profile")].

(** What the validator returns for [authorize_trusted]. *)
Definition trusted_credentials : Credentials :=
  {| cr_client_id := PStr "trusted"; cr_redirect_uri := PStr "https://trusted/cb";
     cr_response_type := PStr "code"; cr_state := PStr "xyz";
     cr_request := _get_request_information authorize_trusted |}.

(** GET /oauth2/userinfo with the token in the [Authorization] header. *)
Definition userinfo_bearer : Request :=
  GET "/oauth2/userinfo" [("Authorization", "Bearer tok1")] [].

(** GET /oauth2/userinfo?access_token=tok1, without [Authorization] header. *)
Definition userinfo_query : Request :=
  GET "/oauth2/userinfo" [] [("access_token", "tok1")].

(** GET /oauth2/otherinfo for a registered and for an unknown model. *)
Definition otherinfo_users : Request :=
  GET "/oauth2/otherinfo" [] [("access_token", "tok1"); ("model", "res.users")].

Definition otherinfo_unknown : Request :=
  GET "/oauth2/otherinfo" [] [("access_token", "tok1"); ("model", "res.nothing")].

(** GET /oauth2/tokeninfo?access_token=old *)
Definition tokeninfo_old : Request :=
  GET "/oauth2/tokeninfo" [] [("access_token", "old")].

(** POST /oauth2/revoke_token by access-token and by refresh-token value. *)
Definition revoke_by_access : Request :=
  POST "/oauth2/revoke_token" [] [("token", "tok1")].

Definition revoke_by_refresh : Request :=
  POST "/oauth2/revoke_token" [] [("token", "ref1")].

(** POST /oauth2/revoke_token for a value that names no token. *)
Definition revoke_unknown : Request :=
  POST "/oauth2/revoke_token" [] [("token", "nope")].

(** The state once the trusted client holds the code [c0de]. *)
Definition st_code : State := fst (authorize ctx0 st0 authorize_trusted).

(** POST /oauth2/token exchanging that code. *)
Definition exchange : Request :=
  POST "/oauth2/token" []
    [("client_id", "trusted"); ("grant_type", "authorization_code");
     ("code", "c0de"); ("redirect_uri", "https://trusted/cb")].

(** The same code presented under a client identifier nobody registered. *)
Definition exchange_unknown_client : Request :=
  POST "/oauth2/token" []
    [("client_id", "nobody"); ("grant_type", "authorization_code");
     ("code", "c0de"); ("redirect_uri", "https://trusted/cb")].

(** The exchange without [client_id], as sent from the browser session that
    went through [authorize]. *)
Definition exchange_from_session : Request :=
  POST "/oauth2/token" []
    [("grant_type", "authorization_code"); ("code", "c0de");
     ("redirect_uri", "https://trusted/cb")].

(** The state once the code has been exchanged for the token [tok1]. *)
Definition st_token : State := fst (token ctx0 st_code exchange).

(** Requests served between two exchange attempts: an introspection, and a
    second authorization by the trusted client. *)
Definition calls_between : list Call :=
  [ {| call_route := GET_tokeninfo; call_ctx := ctx1; call_session := no_session;
       call_request := GET "/oauth2/tokeninfo" [] [("access_token", "tok1")] |};
    {| call_route := GET_authorize; call_ctx := ctx1; call_session := no_session;
       call_request := authorize_trusted |} ].

(** The token [tok1] as stored. *)
Definition tok1 : Token.t :=
  Token.mk "tok1" (Some "ref1") trusted (Some 7) [profile] 4600 false.




(** A state whose only token ran out at 900, before [ctx0]'s clock. *)
Definition st_expired : State :=
  {| store := set_tokens store0
                [Token.mk "old" (Some "oldref") app1 (Some 7) [profile] 900 false];
     session := no_session |}.

(** ** The denial route and the Authorization header *)

(** What the JSON route [deny_post] hands back: the dumped data, nothing at
    all, or the attribute error of calling [.get] on [None]. *)
Inductive deny_result : Type :=
| DenyData (data : json)
| DenyNothing
| DenyAttributeError.

(** POST /oauth2/deny. [submit_button] defaults to "oauth_deny"; the redirect
    URI is read from the pending authorization of the session with
    [session.get('oauth_credentials').get('redirect_uri')]. *)
Definition deny_post (st : State) (req : Request) : State * deny_result :=
  let submit_button :=
    match param req "submit_button" with
    | Some b => b
    | None => "oauth_deny"
    end in
  if String.eqb submit_button "oauth_deny" then
    match oauth_credentials (session st) with
    | None => (st, DenyAttributeError)
    | Some credentials =>
        (st, DenyData (JObj [("grant", JNum 400);
                             ("redirect_uri",
                              match credentials !! "redirect_uri" with
                              | Some (PStr redirect_uri) => JStr redirect_uri
                              | _ => JNull
                              end)]))
    end
  else (st, DenyNothing).

(** Whether a string contains a space. *)
Fixpoint has_space (s : string) : bool :=
  match s with
  | EmptyString => false
  | String c r => Ascii.eqb c " "%char || has_space r
  end.

(** Further sample requests and states. *)

(** The state once [app1] has a pending authorization waiting for consent. *)
Definition st_pending : State := fst (authorize ctx0 st0 authorize_app1).

(** What the validator returns for [authorize_app1]. *)
Definition app1_credentials : Credentials :=
  {| cr_client_id := PStr "app1"; cr_redirect_uri := PStr "https://app1/cb";
     cr_response_type := PStr "code"; cr_state := PStr "s";
     cr_request := _get_request_information authorize_app1 |}.

(** The consent form posted back, and the denial. *)
Definition consent : Request := POST "/oauth2/authorize" [] [].

Definition deny : Request := POST "/oauth2/deny" [] [].

(** An [Authorization] header without a space. *)
Definition userinfo_malformed : Request :=
  GET "/oauth2/userinfo" [("Authorization", "Bearer")] [("access_token", "tok1")].

(** A bearer header next to another value in the query string. *)
Definition userinfo_other_scheme : Request :=
  GET "/oauth2/userinfo" [("Authorization", "Bearer tok1")] [("access_token", "nope")].

(** A Basic header next to the token in the query string. *)
Definition userinfo_basic : Request :=
  GET "/oauth2/userinfo" [("Authorization", "Basic dXNlcjpwdw==")]
    [("access_token", "tok1")].

(** GET /oauth2/tokeninfo and /oauth2/otherinfo without [access_token]. *)
Definition tokeninfo_no_token : Request := GET "/oauth2/tokeninfo" [] [].

(** A scope that exposes the user's id and nothing else, and a state whose
    only token was granted that scope. *)
Definition ident : Scope.t := Scope.mk "ident" "Identifier" [("res.users", ["id"])].

Definition tok_id : Token.t :=
  Token.mk "tokid" None app1 (Some 7) [ident] 5000 false.

Definition st_ident : State :=
  {| store := set_tokens store0 [tok_id]; session := no_session |}.

Definition tokeninfo_ident : Request :=
  GET "/oauth2/tokeninfo" [] [("access_token", "tokid")].

(** The exchange of [c0de] as sent by the trusted client itself. *)
Definition other_session : Session :=
  {| oauth_scopes := Some ["profile"];
     oauth_credentials := Some (<["client_id" := PStr "app1"]> ∅) |}.

(** * Properties *)

(** ** Helper lemmas *)

Lemma mem_In (x : string) (xs : list string) : mem x xs = true -> In x xs.
Proof.
  unfold mem. intros H. apply existsb_exists in H as (y & Hy & Heq).
  apply String.eqb_eq in Heq. now subst.
Qed.

Lemma In_mem (x : string) (xs : list string) : In x xs -> mem x xs = true.
Proof.
  unfold mem. intros H. apply existsb_exists. exists x. split; [done|].
  apply String.eqb_refl.
Qed.

Lemma opt_eqb_Some (a : option string) (y : string) :
  opt_eqb a (Some y) = true -> a = Some y.
Proof.
  destruct a as [x|]; simpl; [|discriminate].
  intros H. apply String.eqb_eq in H. now subst.
Qed.

Lemma opt_eqb_refl (a : option string) : opt_eqb a a = true.
Proof. destruct a; simpl; [apply String.eqb_refl | reflexivity]. Qed.

Lemma head_In {A : Type} (l : list A) (x : A) : head l = Some x -> In x l.
Proof. destruct l; simpl; [discriminate|]. intros [= ->]. now left. Qed.

(** Every client of a search result is registered under the searched id. *)
Lemma search_client_hit (s : Store) (client_id : option string) (client : Client.t)
    (rest : list Client.t) :
  search_client s client_id = client :: rest ->
  In client (clients s) /\ client_id = Some (Client.identifier client).
Proof.
  unfold search_client. intros H.
  assert (Hin : In client (List.filter
            (fun c => opt_eqb client_id (Some (Client.identifier c))) (clients s)))
    by (rewrite H; now left).
  apply filter_In in Hin as [Hin Heq]. split; [done|]. now apply opt_eqb_Some.
Qed.

Lemma search_client_miss (s : Store) (client_id : option string) :
  search_client s client_id = [] <->
  forall client, In client (clients s) -> client_id <> Some (Client.identifier client).
Proof.
  unfold search_client. split.
  - intros H client Hin Heq.
    assert (Hf : In client (List.filter
              (fun c => opt_eqb client_id (Some (Client.identifier c))) (clients s))).
    { apply filter_In. split; [done|]. rewrite Heq. apply opt_eqb_refl. }
    rewrite H in Hf. destruct Hf.
  - intros H. induction (clients s) as [|c l IH]; simpl; [reflexivity|].
    destruct (opt_eqb client_id (Some (Client.identifier c))) eqn:E.
    + apply opt_eqb_Some in E. exfalso. apply (H c); [now left | done].
    + apply IH. intros client Hin. apply H. now right.
Qed.

(** What a successful validation guarantees about its credentials. *)
Lemma validate_authorization_request_ok (client : Client.t) (info : RequestInformation)
    (scopes : list string) (credentials : Credentials) :
  validate_authorization_request client info = inr (scopes, credentials) ->
  assoc "client_id" (body info) = Some (Client.identifier client)
  /\ cr_client_id credentials = PStr (Client.identifier client)
  /\ (exists redirect_uri,
        cr_redirect_uri credentials = PStr redirect_uri
        /\ In redirect_uri (Client.redirect_uris client))
  /\ cr_response_type credentials = of_option (assoc "response_type" (body info))
  /\ cr_state credentials = of_option (assoc "state" (body info))
  /\ cr_request credentials = info
  /\ Forall (fun c => In c (scope_codes (Client.scope_ids client))) scopes.
Proof.
  unfold validate_authorization_request.
  destruct (opt_eqb (assoc "client_id" (body info)) (Some (Client.identifier client)))
    eqn:Hid; simpl; [|discriminate].
  apply opt_eqb_Some in Hid.
  destruct (verified_redirect_uri client (assoc "redirect_uri" (body info)))
    as [u|] eqn:Hu; [|discriminate].
  destruct (opt_eqb (assoc "response_type" (body info)) (Some "code")
            && mem "authorization_code" (Client.grant_types client)); simpl;
    [|discriminate].
  set (granted := List.filter _ _).
  assert (Hall : Forall (fun c => In c (scope_codes (Client.scope_ids client))) granted).
  { apply Forall_forall. intros c Hc. apply list_elem_of_In in Hc.
    apply filter_In in Hc as [_ Hc].
    now apply mem_In. }
  destruct granted as [|c0 cs] eqn:Hg; [discriminate|].
  intros [= <- <-]. simpl. repeat split; try done.
  exists u. split; [done|].
  unfold verified_redirect_uri in Hu.
  destruct (assoc "redirect_uri" (body info)) as [u'|].
  - destruct (mem u' (Client.redirect_uris client)) eqn:Hm; [|discriminate].
    injection Hu as <-. now apply mem_In.
  - now apply head_In.
Qed.

Lemma stored_credentials_lookup (credentials : Credentials) :
  stored_credentials credentials !! "client_id" = Some (cr_client_id credentials)
  /\ stored_credentials credentials !! "redirect_uri" = Some (cr_redirect_uri credentials)
  /\ stored_credentials credentials !! "response_type"
     = Some (cr_response_type credentials)
  /\ stored_credentials credentials !! "state" = Some (cr_state credentials).
Proof. unfold stored_credentials. repeat split; by simplify_map_eq. Qed.

(** [authorize_post] leaves the session as it found it. *)
Lemma authorize_post_session (ctx : Ctx) (st : State) (req : Request) :
  session (fst (authorize_post ctx st req)) = session st.
Proof.
  unfold authorize_post.
  destruct (search_client _ _); [reflexivity|].
  destruct (oauth_scopes _); [|reflexivity].
  destruct (oauth_credentials _); [|reflexivity].
  destruct (create_authorization_response _ _ _ _ _) as [s' [e|[[hs b] status]]];
    [reflexivity|].
  destruct (assoc "Location" hs); reflexivity.
Qed.

(** [authorize_post] never renders the consent page. *)
Lemma authorize_post_no_consent_page (ctx : Ctx) (st : State) (req : Request)
    (client_name : string) (scope_records : list Scope.t) :
  except_oauth2 (snd (authorize_post ctx st req))
  <> Return (Render (authorization client_name scope_records)).
Proof.
  unfold authorize_post.
  destruct (search_client _ _); [discriminate|].
  destruct (oauth_scopes _); [|discriminate].
  destruct (oauth_credentials _); [|discriminate].
  destruct (create_authorization_response _ _ _ _ _) as [s' [e|[[hs b] status]]].
  - destruct e; discriminate.
  - destruct (assoc "Location" hs); discriminate.
Qed.

(** With the pending authorization of a validated request in the session,
    [authorize_post] issues a code and redirects to the verified URI. *)
Lemma authorize_post_after_remember (ctx : Ctx) (st : State) (req : Request)
    (client : Client.t) (rest : list Client.t) (scopes : list string)
    (credentials : Credentials) :
  search_client (store st) (param req "client_id") = client :: rest ->
  validate_authorization_request client (_get_request_information req)
  = inr (scopes, credentials) ->
  exists redirect_uri query codes',
    In redirect_uri (Client.redirect_uris client)
    /\ authorize_post ctx (remember st scopes credentials) req
       = (set_store (remember st scopes credentials) (set_codes (store st) codes'),
          Return (Redirect (redirect_uri +:+ query) 302)).
Proof.
  intros Hsearch Hvalid.
  destruct (validate_authorization_request_ok _ _ _ _ Hvalid)
    as (Hid & Hcid & (u & Hu & Hin) & _).
  destruct (stored_credentials_lookup credentials) as (Lc & Lr & _ & Ls).
  exists u.
  exists ("?code=" +:+ fresh_code ctx +:+
          match cr_state credentials with PStr s => "&state=" +:+ s | PNone => "" end).
  eexists. split; [done|].
  unfold authorize_post, session_client_id. simpl.
  rewrite Lc, Hcid. simpl.
  replace (Some (Client.identifier client)) with (param req "client_id")
    by (unfold param; exact Hid).
  rewrite Hsearch.
  unfold create_authorization_response. rewrite Lr, Hu, Ls. simpl.
  destruct (cr_state credentials); reflexivity.
Qed.

(** A redirect URI that the request names is the one the validator verifies. *)
Lemma validate_redirect_uri_exact (client : Client.t) (info : RequestInformation)
    (scopes : list string) (credentials : Credentials) (u : string) :
  validate_authorization_request client info = inr (scopes, credentials) ->
  assoc "redirect_uri" (body info) = Some u ->
  cr_redirect_uri credentials = PStr u.
Proof.
  unfold validate_authorization_request, verified_redirect_uri. intros H Hu.
  rewrite Hu in H.
  destruct (negb _); [discriminate|].
  destruct (mem u (Client.redirect_uris client)); [|discriminate].
  destruct (negb _); [discriminate|].
  destruct (List.filter _ _); [discriminate|].
  now injection H as _ <-.
Qed.

(** The query string of the redirect that hands the code over. *)
Lemma authorize_post_location (ctx ctx' : Ctx) (st : State) (req req' : Request)
    (client : Client.t) (rest : list Client.t) (scopes : list string)
    (credentials : Credentials) :
  search_client (store st) (param req "client_id") = client :: rest ->
  validate_authorization_request client (_get_request_information req)
  = inr (scopes, credentials) ->
  exists redirect_uri codes',
    In redirect_uri (Client.redirect_uris client)
    /\ (forall u, param req "redirect_uri" = Some u -> u = redirect_uri)
    /\ authorize_post ctx' (remember st scopes credentials) req'
       = (set_store (remember st scopes credentials) (set_codes (store st) codes'),
          Return (Redirect
                    (redirect_uri +:+ "?code=" +:+ fresh_code ctx' +:+
                     match param req "state" with
                     | Some state => "&state=" +:+ state
                     | None => ""
                     end) 302)).
Proof.
  intros Hsearch Hvalid.
  destruct (validate_authorization_request_ok _ _ _ _ Hvalid)
    as (Hid & Hcid & (u & Hu & Hin) & _ & Hstate & _).
  destruct (stored_credentials_lookup credentials) as (Lc & Lr & _ & Ls).
  exists u. eexists. split; [exact Hin|]. split.
  - intros u' Hu'.
    pose proof (validate_redirect_uri_exact _ _ _ _ u' Hvalid Hu') as Hexact.
    rewrite Hu in Hexact. now injection Hexact as ->.
  - unfold authorize_post, session_client_id. simpl.
    rewrite Lc, Hcid. simpl.
    replace (Some (Client.identifier client)) with (param req "client_id")
      by (unfold param; exact Hid).
    rewrite Hsearch.
    unfold create_authorization_response. rewrite Lr, Hu, Ls, Hstate. simpl.
    unfold param. destruct (assoc "state" (values req)); reflexivity.
Qed.

(** ** The claims *)

(** C3. A GET /oauth2/authorize request whose [client_id] matches no
    registered client is answered by the error page rendered directly to the
    user, never by a redirect. And whenever [authorize] does answer with a
    redirect, it is the 302 that hands the code over: its target is exactly a
    redirect URI registered for the client named by the request, the one the
    request gave if it gave one, followed by the query [?code=<code>] and, if
    the request had a state, [&state=<state>]. No redirect of [authorize]
    carries an error. *)
Theorem authorize_unknown_client_is_fatal (ctx : Ctx) (st : State) (req : Request) :
  (search_client (store st) (param req "client_id") = [] ->
   authorize ctx st req
   = (st, Return (Render (authorization_error "Unknown Client Identifier!"
                            "This client identifier is invalid."))))
  /\ (forall st' location status,
        authorize ctx st req = (st', Return (Redirect location status)) ->
        exists client redirect_uri,
          In client (clients (store st))
          /\ param req "client_id" = Some (Client.identifier client)
          /\ In redirect_uri (Client.redirect_uris client)
          /\ (forall u, param req "redirect_uri" = Some u -> u = redirect_uri)
          /\ status = 302
          /\ location
             = redirect_uri +:+ "?code=" +:+ fresh_code ctx +:+
               match param req "state" with
               | Some state => "&state=" +:+ state
               | None => ""
               end).
Proof.
  split.
  - intros Hmiss. unfold authorize. now rewrite Hmiss.
  - intros st' location status. unfold authorize.
    destruct (search_client (store st) (param req "client_id"))
      as [|client rest] eqn:Hsearch; [discriminate|].
    destruct (search_client_hit _ _ _ _ Hsearch) as [Hin Hid].
    destruct (validate_authorization_request client (_get_request_information req))
      as [e|[scopes credentials]] eqn:Hvalid.
    + destruct e; discriminate.
    + destruct (Client.skip_authorization client); [|discriminate].
      destruct (authorize_post_location ctx ctx st req req client rest scopes
                  credentials Hsearch Hvalid)
        as (u & codes' & Hu & Hexact & Hpost).
      rewrite Hpost. simpl. intros [= _ <- <-].
      exists client, u. done.
Qed.

(** C7. When the request validates and the client has [skip_authorization]
    set, [authorize] is exactly [authorize_post] run on the state holding the
    pending authorization, and its answer is never the consent page. *)
Theorem authorize_skip_authorization (ctx : Ctx) (st : State) (req : Request)
    (client : Client.t) (rest : list Client.t) (scopes : list string)
    (credentials : Credentials) :
  search_client (store st) (param req "client_id") = client :: rest ->
  validate_authorization_request client (_get_request_information req)
  = inr (scopes, credentials) ->
  Client.skip_authorization client = true ->
  authorize ctx st req = authorize_post ctx (remember st scopes credentials) req
  /\ forall client_name scope_records,
       snd (authorize ctx st req)
       <> Return (Render (authorization client_name scope_records)).
Proof.
  intros Hsearch Hvalid Hskip.
  destruct (authorize_post_after_remember ctx _ _ _ _ _ _ Hsearch Hvalid)
    as (u & query & codes' & Hu & Hpost).
  assert (Heq : authorize ctx st req
                = authorize_post ctx (remember st scopes credentials) req).
  { unfold authorize. rewrite Hsearch, Hvalid, Hskip. cbv zeta.
    rewrite Hpost. reflexivity. }
  split; [exact Heq|].
  intros client_name scope_records. rewrite Heq, Hpost. discriminate.
Qed.

(** C8. After a validated authorization request the session holds the granted
    scope codes and a dictionary of exactly four primitive entries, client id,
    redirect URI, response type and state, taken from the validator's
    credentials; the request object those credentials carry is not stored. *)
Theorem authorize_stores_primitive_fields (ctx : Ctx) (st : State) (req : Request)
    (client : Client.t) (rest : list Client.t) (scopes : list string)
    (credentials : Credentials) :
  search_client (store st) (param req "client_id") = client :: rest ->
  validate_authorization_request client (_get_request_information req)
  = inr (scopes, credentials) ->
  oauth_scopes (session (fst (authorize ctx st req))) = Some scopes
  /\ Forall (fun c => In c (scope_codes (Client.scope_ids client))) scopes
  /\ exists d : gmap string pyval,
       oauth_credentials (session (fst (authorize ctx st req))) = Some d
       /\ dom d = ({["client_id"; "redirect_uri"; "response_type"; "state"]}
                   : gset string)
       /\ d !! "client_id" = Some (cr_client_id credentials)
       /\ d !! "redirect_uri" = Some (cr_redirect_uri credentials)
       /\ d !! "response_type" = Some (cr_response_type credentials)
       /\ d !! "state" = Some (cr_state credentials)
       /\ d !! "request" = None.
Proof.
  intros Hsearch Hvalid.
  assert (Hsess : session (fst (authorize ctx st req))
                  = session (remember st scopes credentials)).
  { unfold authorize. rewrite Hsearch, Hvalid. cbv zeta.
    destruct (Client.skip_authorization client); [|reflexivity].
    pose proof (authorize_post_session ctx (remember st scopes credentials) req) as H.
    destruct (authorize_post ctx (remember st scopes credentials) req). exact H. }
  rewrite Hsess. simpl.
  destruct (validate_authorization_request_ok _ _ _ _ Hvalid)
    as (_ & _ & _ & _ & _ & _ & Hscopes).
  destruct (stored_credentials_lookup credentials) as (Lc & Lr & Lt & Ls).
  split; [reflexivity|]. split; [exact Hscopes|].
  exists (stored_credentials credentials). repeat split; done.
Qed.

(** C4. [revoke_token] looks the supplied value up as an access-token value
    first: when that hits, the revocation is answered by the server of that
    token's client. Only when it misses is the value looked up as a
    refresh-token value, and a hit there is answered by the server of the
    client of the token found that way. When both miss the outcome is the 401
    response with body [{"error": "invalid_or_expired_token"}], a returned
    response and not an exception, with the state unchanged; on a hit the
    handler never answers that. *)
Theorem revoke_token_lookup_order (ctx : Ctx) (st : State) (req : Request) :
  (forall tk rest,
     search_token (store st) (param req "token") = tk :: rest ->
     revoke_token ctx st req
     = (set_store st (fst (create_revocation_response (store st) (Token.client_id tk)
                             (_get_request_information req))),
        Return (BaseResponse None 200 [])))
  /\ (forall tk rest,
        search_token (store st) (param req "token") = [] ->
        search_refresh_token (store st) (param req "token") = tk :: rest ->
        revoke_token ctx st req
        = (set_store st (fst (create_revocation_response (store st)
                                (Token.client_id tk) (_get_request_information req))),
           Return (BaseResponse None 200 [])))
  /\ (search_token (store st) (param req "token") = [] ->
      search_refresh_token (store st) (param req "token") = [] ->
      revoke_token ctx st req
      = (st, Return (BaseResponse
                       (Some (JObj [("error", JStr "invalid_or_expired_token")]))
                       401 [("Content-Type", "application/json")])))
  /\ (snd (revoke_token ctx st req)
      = Return (BaseResponse
                  (Some (JObj [("error", JStr "invalid_or_expired_token")]))
                  401 [("Content-Type", "application/json")])
      -> search_token (store st) (param req "token") = []
         /\ search_refresh_token (store st) (param req "token") = []).
Proof.
  unfold revoke_token, revoke_lookup. repeat split.
  - intros tk rest ->. reflexivity.
  - intros tk rest -> ->. reflexivity.
  - intros -> ->. reflexivity.
  - destruct (search_token _ _); [reflexivity | discriminate].
  - destruct (search_token _ _); [|discriminate].
    destruct (search_refresh_token _ _); [reflexivity | discriminate].
Qed.

Lemma authorize_unknown_client_is_fatal_witness :
  (search_client (store st0) (param authorize_unknown "client_id") = []
   /\ authorize ctx0 st0 authorize_unknown
      = (st0, Return (Render (authorization_error "Unknown Client Identifier!"
                                "This client identifier is invalid."))))
  /\ (snd (authorize ctx0 st0 authorize_trusted)
      = Return (Redirect "https://trusted/cb?code=c0de&state=xyz" 302)
      /\ exists client redirect_uri,
           In client (clients (store st0))
           /\ param authorize_trusted "client_id" = Some (Client.identifier client)
           /\ In redirect_uri (Client.redirect_uris client)
           /\ (forall u, param authorize_trusted "redirect_uri" = Some u
                         -> u = redirect_uri)
           /\ 302 = 302
           /\ "https://trusted/cb?code=c0de&state=xyz"
              = redirect_uri +:+ "?code=" +:+ fresh_code ctx0 +:+
                match param authorize_trusted "state" with
                | Some state => "&state=" +:+ state
                | None => ""
                end).
Proof.
  split.
  - split; [reflexivity|].
    apply (proj1 (authorize_unknown_client_is_fatal ctx0 st0 authorize_unknown)).
    reflexivity.
  - split; [reflexivity|].
    apply (proj2 (authorize_unknown_client_is_fatal ctx0 st0 authorize_trusted)
             (fst (authorize ctx0 st0 authorize_trusted))).
    reflexivity.
Defined.

Lemma authorize_skip_authorization_witness :
  authorize ctx0 st0 authorize_trusted
  = authorize_post ctx0 (remember st0 ["profile"] trusted_credentials) authorize_trusted
  /\ forall client_name scope_records,
       snd (authorize ctx0 st0 authorize_trusted)
       <> Return (Render (authorization client_name scope_records)).
Proof.
  apply (authorize_skip_authorization ctx0 st0 authorize_trusted trusted []
           ["profile"] trusted_credentials); reflexivity.
Defined.

Lemma authorize_stores_primitive_fields_witness :
  oauth_scopes (session (fst (authorize ctx0 st0 authorize_trusted))) = Some ["profile"]
  /\ Forall (fun c => In c (scope_codes (Client.scope_ids trusted))) ["profile"]
  /\ exists d : gmap string pyval,
       oauth_credentials (session (fst (authorize ctx0 st0 authorize_trusted))) = Some d
       /\ dom d = ({["client_id"; "redirect_uri"; "response_type"; "state"]}
                   : gset string)
       /\ d !! "client_id" = Some (PStr "trusted")
       /\ d !! "redirect_uri" = Some (PStr "https://trusted/cb")
       /\ d !! "response_type" = Some (PStr "code")
       /\ d !! "state" = Some (PStr "xyz")
       /\ d !! "request" = None.
Proof.
  apply (authorize_stores_primitive_fields ctx0 st0 authorize_trusted trusted []
           ["profile"] trusted_credentials); reflexivity.
Defined.

Lemma revoke_token_lookup_order_witness :
  revoke_token ctx1 st_token revoke_by_access
  = (set_store st_token
       (fst (create_revocation_response (store st_token) trusted
               (_get_request_information revoke_by_access))),
     Return (BaseResponse None 200 []))
  /\ revoke_token ctx1 st_token revoke_by_refresh
     = (set_store st_token
          (fst (create_revocation_response (store st_token) trusted
                  (_get_request_information revoke_by_refresh))),
        Return (BaseResponse None 200 []))
  /\ revoke_token ctx0 st0 revoke_unknown
     = (st0, Return (BaseResponse
                       (Some (JObj [("error", JStr "invalid_or_expired_token")]))
                       401 [("Content-Type", "application/json")])).
Proof.
  split; [|split].
  - exact (proj1 (revoke_token_lookup_order ctx1 st_token revoke_by_access)
             tok1 [] eq_refl).
  - exact (proj1 (proj2 (revoke_token_lookup_order ctx1 st_token revoke_by_refresh))
             tok1 [] eq_refl eq_refl).
  - apply (proj1 (proj2 (proj2 (revoke_token_lookup_order ctx0 st0 revoke_unknown))));
      reflexivity.
Defined.

Lemma search_model_hit (s : Store) (model : string) :
  In model (models s) -> search_model s (Some model) <> [].
Proof.
  unfold search_model. intros Hin Hnil.
  assert (H : In model (List.filter (fun m => opt_eqb (Some model) (Some m)) (models s))).
  { apply filter_In. split; [done|]. simpl. apply String.eqb_refl. }
  rewrite Hnil in H. destruct H.
Qed.

Lemma search_model_miss (s : Store) (model : option string) :
  (forall m, model = Some m -> ~ In m (models s)) -> search_model s model = [].
Proof.
  unfold search_model. intros H.
  destruct (List.filter (fun m => opt_eqb model (Some m)) (models s)) as [|m l] eqn:E;
    [reflexivity|].
  assert (Hin : In m (List.filter (fun m => opt_eqb model (Some m)) (models s)))
    by (rewrite E; now left).
  apply filter_In in Hin as [Hin Heq]. apply opt_eqb_Some in Heq.
  exfalso. exact (H m Heq Hin).
Qed.

(** Only authorized fields survive the filter. *)
Lemma filter_fields_allowed (allowed : list string) (vals : list (string * json))
    (k : string) (v : json) :
  In (k, v) (filter_fields allowed vals) -> In k allowed /\ In (k, v) vals.
Proof.
  unfold filter_fields. intros H. apply filter_In in H as [Hin Hm].
  split; [now apply mem_In | done].
Qed.

(** C9. For a request carrying a valid access token, [otherinfo] answers 400
    with the JSON body [{"error": "invalid_model"}] when the requested model
    is unknown, and 200 with the data of that model otherwise, in which every
    field is one the token's scopes authorize for that model. *)
Theorem otherinfo_model_known_or_400 (ctx : Ctx) (st : State) (req : Request)
    (tk : Token.t) :
  _check_access_token ctx st req (param req "access_token") = Some tk ->
  ((forall model, param req "model" = Some model -> ~ In model (models (store st))) ->
   otherinfo ctx st req
   = (st, Return (BaseResponse (Some (JObj [("error", JStr "invalid_model")])) 400
                    [("Content-Type", "application/json")])))
  /\ (forall model,
        param req "model" = Some model -> In model (models (store st)) ->
        otherinfo ctx st req
        = (st, Return (BaseResponse
                         (Some (JObj (get_data_for_model (store st) tk model None)))
                         200 [("Content-Type", "application/json")]))
        /\ forall key fields k v,
             In (key, JObj fields) (get_data_for_model (store st) tk model None) ->
             In (k, v) fields -> In k (allowed_fields tk model)).
Proof.
  intros Hcheck. split.
  - intros Hmiss. unfold otherinfo. rewrite Hcheck.
    rewrite (search_model_miss _ _ Hmiss). reflexivity.
  - intros model Hparam Hin. split.
    + unfold otherinfo. rewrite Hcheck, Hparam.
      pose proof (search_model_hit _ _ Hin) as Hhit.
      destruct (search_model (store st) (Some model)); [congruence | reflexivity].
    + intros key fields k v. unfold get_data_for_model.
      destruct (allowed_fields tk model) as [|a allowed] eqn:Ha; [intros []|].
      intros Hentry Hfield. apply in_map_iff in Hentry as (r & Heq & _).
      injection Heq as _ <-.
      now apply filter_fields_allowed in Hfield as [Hk _].
Qed.

Lemma otherinfo_model_known_or_400_witness :
  _check_access_token ctx0 st_token otherinfo_unknown
    (param otherinfo_unknown "access_token") = Some tok1
  /\ otherinfo ctx0 st_token otherinfo_unknown
     = (st_token,
        Return (BaseResponse (Some (JObj [("error", JStr "invalid_model")])) 400
                  [("Content-Type", "application/json")]))
  /\ otherinfo ctx0 st_token otherinfo_users
     = (st_token,
        Return (BaseResponse
                  (Some (JObj [("7", JObj [("id", JNum 7); ("name", JStr "Alice");
                                           ("login", JStr "alice")])]))
                  200 [("Content-Type", "application/json")])).
Proof.
  split; [reflexivity|]. split.
  - apply (proj1 (otherinfo_model_known_or_400 ctx0 st_token otherinfo_unknown tok1
                    eq_refl)).
    intros model [= <-] [H|[]]. discriminate H.
  - apply (proj2 (otherinfo_model_known_or_400 ctx0 st_token otherinfo_users tok1
                    eq_refl) "res.users" eq_refl).
    now left.
Defined.

(** A stored token found by value is one of the stored tokens of that value. *)
Lemma find_token_Some (s : Store) (v : string) (tk : Token.t) :
  find_token s v = Some tk -> In tk (tokens s) /\ Token.token tk = v.
Proof.
  unfold find_token. intros H. apply find_some in H as [Hin Heq].
  split; [done|]. now apply String.eqb_eq.
Qed.

(** The bearer check refuses a value all of whose tokens have run out. *)
Lemma verify_request_expired (ctx : Ctx) (s : Store) (info : RequestInformation)
    (v : string) :
  bearer_token info = Some v ->
  (forall tk, In tk (tokens s) -> Token.token tk = v -> Token.expires_at tk < now ctx) ->
  fst (verify_request ctx s info) = false.
Proof.
  intros Hb Hexp. unfold verify_request. rewrite Hb. simpl.
  destruct (find_token s v) as [tk|] eqn:Hf; [|reflexivity].
  apply find_token_Some in Hf as [Hin Hv].
  unfold token_valid. specialize (Hexp tk Hin Hv).
  replace (now ctx <? Token.expires_at tk) with false; [reflexivity|].
  symmetry. apply Z.ltb_ge. lia.
Qed.

(** The guarded case: when every stored token of the presented value has its
    expiry in the past, whatever its revocation flag, and the request presents
    to the server the very value it asks about, [_check_access_token] does not
    report a valid token and [tokeninfo] answers 401 with the JSON body
    [{"error": "invalid_or_expired_token"}]. *)
Lemma expired_token_refused_when_presented (generate_user_id : Token.t -> string)
    (ctx : Ctx) (st : State) (req : Request) (v : string) :
  param req "access_token" = Some v ->
  bearer_token (_get_request_information req) = Some v ->
  (forall tk, In tk (tokens (store st)) -> Token.token tk = v ->
              Token.expires_at tk < now ctx) ->
  _check_access_token ctx st req (Some v) = None
  /\ tokeninfo generate_user_id ctx st req
     = (st, Return (BaseResponse
                      (Some (JObj [("error", JStr "invalid_or_expired_token")]))
                      401 [("Content-Type", "application/json")])).
Proof.
  intros Hparam Hbearer Hexp.
  assert (Hcheck : _check_access_token ctx st req (Some v) = None).
  { unfold _check_access_token.
    destruct (search_token (store st) (Some v)); [reflexivity|].
    pose proof (verify_request_expired ctx (store st) _ v Hbearer Hexp) as Hv.
    destruct (verify_request ctx (store st) (_get_request_information req))
      as [valid r]. simpl in Hv. now rewrite Hv. }
  split; [exact Hcheck|].
  unfold tokeninfo. rewrite Hparam, Hcheck. reflexivity.
Qed.

Lemma expired_token_refused_when_presented_witness :
  _check_access_token ctx0 st_expired tokeninfo_old (Some "old") = None
  /\ tokeninfo (fun _ => "uid") ctx0 st_expired tokeninfo_old
     = (st_expired,
        Return (BaseResponse
                  (Some (JObj [("error", JStr "invalid_or_expired_token")]))
                  401 [("Content-Type", "application/json")])).
Proof.
  apply (expired_token_refused_when_presented (fun _ => "uid") ctx0 st_expired
           tokeninfo_old "old");
    [reflexivity | reflexivity |].
  intros tk [<-|[]] _. simpl. lia.
Defined.


(** Without an [Authorization] header the query parameter is discarded: the
    lookup is made with the empty string. *)
Lemma userinfo_without_authorization_header (ctx : Ctx) (st : State) (req : Request) :
  assoc "Authorization" (headers req) = None ->
  search_token (store st) (Some "") = [] ->
  userinfo ctx st req = (st, Return invalid_or_expired_token).
Proof.
  intros Hh Hempty. unfold userinfo. rewrite Hh. simpl.
  unfold _check_access_token. now rewrite Hempty.
Qed.

(** C6. [userinfo] at a request that carries the valid token [tok1] in the
    [access_token] query parameter only: the token passes the access-token
    check when looked up by that value, and the same token in an
    [Authorization: Bearer] header yields the user's scope-filtered fields, but
    the query-only request is answered 401 invalid_or_expired_token. *)
Theorem userinfo_query_token_rejected :
  _check_access_token ctx0 st_token userinfo_query (param userinfo_query "access_token")
  = Some tok1
  /\ userinfo ctx0 st_token userinfo_bearer
     = (st_token,
        Return (BaseResponse
                  (Some (JObj [("id", JNum 7); ("name", JStr "Alice");
                               ("login", JStr "alice")]))
                  200 [("Content-Type", "application/json")]))
  /\ userinfo ctx0 st_token userinfo_query
     = (st_token,
        Return (BaseResponse
                  (Some (JObj [("error", JStr "invalid_or_expired_token")]))
                  401 [("Content-Type", "application/json")])).
Proof. repeat split; reflexivity. Qed.

(** ** The grant engine *)

Ltac case_matches :=
  repeat match goal with
         | |- context [match ?x with _ => _ end] => destruct x eqn:?
         end.

Lemma outcome_error (s : Store) (e : string) :
  In e grant_error_codes -> engine_outcome s (s, token_error e).
Proof.
  intros Hin. right. exists e. split; [done|]. split; [reflexivity|].
  unfold error_status. destruct (String.eqb e "invalid_client"); auto.
Qed.

Lemma outcome_success (s s' : Store) (tk : Token.t) (expires_in : Z) :
  engine_outcome s (s', token_success tk expires_in).
Proof. left. unfold token_success. simpl. eauto. Qed.

Create HintDb engine.
#[local] Hint Resolve outcome_success : engine.
#[local] Hint Extern 1 (engine_outcome _ (_, token_error _)) =>
  apply outcome_error; simpl; tauto : engine.

(** Every answer of [create_token_response] is a token or a structured error. *)
Lemma create_token_response_outcome (ctx : Ctx) (s : Store) (client : Client.t)
    (expires_in : Z) (info : RequestInformation) (credentials : TokenCredentials) :
  engine_outcome s (create_token_response ctx s client expires_in info credentials).
Proof.
  unfold create_token_response, authorization_code_grant, refresh_token_grant,
    client_credentials_grant, password_grant.
  case_matches; auto with engine.
Qed.

(** [token] either stops at the unknown client or hands the answer of
    [create_token_response] back, status and body unchanged. *)
Lemma token_cases (ctx : Ctx) (st : State) (req : Request) :
  (search_client (store st) (token_client_id st req) = []
   /\ token ctx st req = (st, unknown_client_401))
  \/ (exists client rest credentials s' headers body status,
        search_client (store st) (token_client_id st req) = client :: rest
        /\ create_token_response ctx (store st) client (Client.token_expires_in client)
             (_get_request_information req) credentials
           = (s', (headers, body, status))
        /\ token ctx st req
           = (set_store st s', Return (BaseResponse (Some body) status headers))).
Proof.
  unfold token.
  destruct (search_client (store st) (token_client_id st req)) as [|client rest];
    [left; split; reflexivity|].
  right. exists client, rest.
  match goal with
  | |- context [create_token_response ?c ?s ?cl ?e ?i ?cr] =>
      exists cr; destruct (create_token_response c s cl e i cr)
        as [s' [[headers body] status]] eqn:E
  end.
  exists s', headers, body, status. repeat split; reflexivity.
Qed.




(** C10. When the request omits [client_id], [token] searches the client
    under the identifier kept in the session: the unknown-client 401 is
    answered exactly when that identifier is absent or not registered, and
    otherwise the answer is the one the server of that client gives. *)
Theorem token_client_id_from_session (ctx : Ctx) (st : State) (req : Request) :
  param req "client_id" = None ->
  token_client_id st req = session_client_id (session st)
  /\ (search_client (store st) (session_client_id (session st)) = [] ->
      token ctx st req
      = (st, Return (BaseResponse (Some (JObj [("error", JStr "invalid_client_id")]))
                       401 [("Content-Type", "application/json")])))
  /\ (forall client rest,
        search_client (store st) (session_client_id (session st)) = client :: rest ->
        ~ fails_with "invalid_client_id" (snd (token ctx st req))
        /\ exists credentials s' headers body status,
             create_token_response ctx (store st) client
               (Client.token_expires_in client) (_get_request_information req)
               credentials = (s', (headers, body, status))
             /\ token ctx st req
                = (set_store st s', Return (BaseResponse (Some body) status headers))).
Proof.
  intros Hnone.
  assert (Hid : token_client_id st req = session_client_id (session st))
    by (unfold token_client_id; now rewrite Hnone).
  split; [exact Hid|]. split.
  - intros Hmiss. destruct (token_cases ctx st req) as [[_ H]|H]; [exact H|].
    destruct H as (client & rest & _ & _ & _ & _ & _ & Hhit & _).
    rewrite Hid in Hhit. congruence.
  - intros client rest Hhit.
    destruct (token_cases ctx st req) as [[H _]|H];
      [rewrite Hid in H; congruence|].
    destruct H as (client' & rest' & credentials & s' & headers & body & status
                   & Hhit' & Hengine & Htoken).
    rewrite Hid, Hhit in Hhit'. injection Hhit' as <- <-.
    split; [|exists credentials, s', headers, body, status; done].
    rewrite Htoken. simpl. intros (status' & headers' & Heq).
    injection Heq as -> _ _.
    pose proof (create_token_response_outcome ctx (store st) client
                  (Client.token_expires_in client) (_get_request_information req)
                  credentials) as Hout.
    rewrite Hengine in Hout. destruct Hout as [(s1 & v & r & Heq)|(e & Hin & Heq & _)].
    + discriminate Heq.
    + injection Heq as _ _ He _. subst e. simpl in Hin.
      repeat destruct Hin as [Hin|Hin]; try discriminate Hin. exact Hin.
Qed.

Lemma token_client_id_from_session_witness :
  param exchange_from_session "client_id" = None
  /\ token_client_id st_code exchange_from_session = session_client_id (session st_code)
  /\ ~ fails_with "invalid_client_id" (snd (token ctx0 st_code exchange_from_session)).
Proof.
  split; [reflexivity|].
  destruct (token_client_id_from_session ctx0 st_code exchange_from_session eq_refl)
    as (H1 & _ & H3).
  split; [exact H1|]. exact (proj1 (H3 trusted [] eq_refl)).
Defined.

(** ** Consumed codes stay consumed *)

Lemma find_code_map (f : AuthorizationCode.t -> AuthorizationCode.t) (v : string)
    (cs : list AuthorizationCode.t) :
  (forall c, AuthorizationCode.code (f c) = AuthorizationCode.code c) ->
  List.find (fun c => String.eqb (AuthorizationCode.code c) v) (map f cs)
  = option_map f (List.find (fun c => String.eqb (AuthorizationCode.code c) v) cs).
Proof.
  intros Hf. induction cs as [|c cs IH]; simpl; [reflexivity|].
  rewrite Hf. destruct (String.eqb (AuthorizationCode.code c) v); [reflexivity | exact IH].
Qed.

Lemma find_code_app (v : string) (cs more : list AuthorizationCode.t)
    (c : AuthorizationCode.t) :
  List.find (fun c => String.eqb (AuthorizationCode.code c) v) cs = Some c ->
  List.find (fun c => String.eqb (AuthorizationCode.code c) v) (cs ++ more) = Some c.
Proof.
  induction cs as [|c0 cs IH]; simpl; [discriminate|].
  destruct (String.eqb (AuthorizationCode.code c0) v); [done | exact IH].
Qed.

Lemma consumed_code_same_codes (v : string) (s s' : Store) :
  codes s' = codes s -> consumed_code v s -> consumed_code v s'.
Proof.
  unfold consumed_code, find_code. intros ->. done.
Qed.

Lemma consumed_code_mark (v v' : string) (s : Store) (tks : list Token.t) :
  consumed_code v s ->
  consumed_code v (set_tokens (set_codes s (mark_consumed v' (codes s))) tks).
Proof.
  intros (c & Hfind & Hc). unfold consumed_code, find_code in *. simpl.
  unfold mark_consumed. rewrite find_code_map.
  - rewrite Hfind. simpl. eexists. split; [reflexivity|].
    destruct (String.eqb (AuthorizationCode.code c) v'); [reflexivity | exact Hc].
  - intros c0. destruct (String.eqb (AuthorizationCode.code c0) v'); reflexivity.
Qed.

Lemma consumed_code_put (v : string) (s : Store) (more : list AuthorizationCode.t) :
  consumed_code v s -> consumed_code v (set_codes s (codes s ++ more)).
Proof.
  intros (c & Hfind & Hc). exists c. split; [|exact Hc].
  unfold find_code in *. simpl. now apply find_code_app.
Qed.

Lemma create_token_response_consumed (v : string) (ctx : Ctx) (s : Store)
    (client : Client.t) (expires_in : Z) (info : RequestInformation)
    (credentials : TokenCredentials) :
  consumed_code v s ->
  consumed_code v (fst (create_token_response ctx s client expires_in info credentials)).
Proof.
  intros H.
  unfold create_token_response, authorization_code_grant, refresh_token_grant,
    client_credentials_grant, password_grant.
  case_matches; simpl; try exact H;
    try (now apply (consumed_code_same_codes v s));
    now apply consumed_code_mark.
Qed.

Lemma create_authorization_response_consumed (v : string) (ctx : Ctx) (s : Store)
    (client : Client.t) (scopes : list string) (credentials : gmap string pyval) :
  consumed_code v s ->
  consumed_code v (fst (create_authorization_response ctx s client scopes credentials)).
Proof.
  intros H. unfold create_authorization_response.
  case_matches; simpl; try exact H; now apply consumed_code_put.
Qed.

Lemma authorize_post_consumed (v : string) (ctx : Ctx) (st : State) (req : Request) :
  consumed_code v (store st) ->
  consumed_code v (store (fst (authorize_post ctx st req))).
Proof.
  intros H. unfold authorize_post.
  destruct (search_client _ _) as [|client rest]; [exact H|].
  destruct (oauth_scopes _) as [scopes|]; [|exact H].
  destruct (oauth_credentials _) as [credentials|]; [|exact H].
  pose proof (create_authorization_response_consumed v ctx (store st) client scopes
                credentials H) as H'.
  destruct (create_authorization_response _ _ _ _ _) as [s' [e|[[hs b] status]]];
    [exact H'|].
  destruct (assoc "Location" hs); exact H'.
Qed.

Lemma authorize_consumed (v : string) (ctx : Ctx) (st : State) (req : Request) :
  consumed_code v (store st) ->
  consumed_code v (store (fst (authorize ctx st req))).
Proof.
  intros H. unfold authorize.
  destruct (search_client _ _); [exact H|].
  destruct (validate_authorization_request _ _) as [e|[scopes credentials]];
    [exact H|].
  destruct (Client.skip_authorization _); [|exact H].
  pose proof (authorize_post_consumed v ctx (remember st scopes credentials) req H)
    as H'.
  destruct (authorize_post ctx (remember st scopes credentials) req). exact H'.
Qed.

Lemma token_consumed (v : string) (ctx : Ctx) (st : State) (req : Request) :
  consumed_code v (store st) ->
  consumed_code v (store (fst (token ctx st req))).
Proof.
  intros H. destruct (token_cases ctx st req) as [[_ ->]|Hc]; [exact H|].
  destruct Hc as (client & rest & credentials & s' & headers & body & status
                  & _ & Hengine & ->).
  pose proof (create_token_response_consumed v ctx (store st) client
                (Client.token_expires_in client) (_get_request_information req)
                credentials H) as H'.
  rewrite Hengine in H'. exact H'.
Qed.

Lemma revoke_token_consumed (v : string) (ctx : Ctx) (st : State) (req : Request) :
  consumed_code v (store st) ->
  consumed_code v (store (fst (revoke_token ctx st req))).
Proof.
  intros H. unfold revoke_token.
  destruct (revoke_lookup _ _); [exact H|]. simpl.
  now apply (consumed_code_same_codes v (store st)).
Qed.

(** The three data endpoints only read. *)
Lemma tokeninfo_reads (g : Token.t -> string) (ctx : Ctx) (st : State) (req : Request) :
  fst (tokeninfo g ctx st req) = st.
Proof. unfold tokeninfo. case_matches; reflexivity. Qed.

Lemma userinfo_reads (ctx : Ctx) (st : State) (req : Request) :
  fst (userinfo ctx st req) = st.
Proof. unfold userinfo. case_matches; reflexivity. Qed.

Lemma otherinfo_reads (ctx : Ctx) (st : State) (req : Request) :
  fst (otherinfo ctx st req) = st.
Proof. unfold otherinfo. case_matches; reflexivity. Qed.

Lemma serve_consumed (g : Token.t -> string) (v : string) (s : Store) (c : Call) :
  consumed_code v s -> consumed_code v (serve g s c).
Proof.
  intros H. unfold serve, dispatch. destruct (call_route c).
  - now apply authorize_consumed.
  - now apply authorize_post_consumed.
  - now apply token_consumed.
  - now rewrite tokeninfo_reads.
  - now rewrite userinfo_reads.
  - now rewrite otherinfo_reads.
  - now apply revoke_token_consumed.
Qed.

Lemma serve_all_consumed (g : Token.t -> string) (v : string) (calls : list Call)
    (s : Store) :
  consumed_code v s -> consumed_code v (serve_all g s calls).
Proof.
  unfold serve_all. revert s.
  induction calls as [|c calls IH]; intros s H; simpl; [exact H|].
  apply IH. now apply serve_consumed.
Qed.

Lemma set_store_same (st : State) : set_store st (store st) = st.
Proof. destruct st. reflexivity. Qed.

(** The engine turns down a code that is absent, consumed or expired. *)
Lemma authorization_code_grant_dead (ctx : Ctx) (s : Store) (client : Client.t)
    (expires_in : Z) (info : RequestInformation) (credentials : TokenCredentials)
    (v : string) :
  assoc "grant_type" (body info) = Some "authorization_code" ->
  assoc "code" (body info) = Some v ->
  (forall c, find_code s v = Some c ->
             AuthorizationCode.consumed c = true
             \/ AuthorizationCode.expires_at c <= now ctx) ->
  create_token_response ctx s client expires_in info credentials
  = (s, token_error "invalid_grant").
Proof.
  intros Hgrant Hcode Hdead.
  unfold create_token_response. rewrite Hgrant. simpl.
  unfold authorization_code_grant. rewrite Hcode.
  destruct (find_code s v) as [c|]; [|reflexivity].
  replace (code_usable ctx client (assoc "redirect_uri" (body info)) c) with false;
    [reflexivity|].
  symmetry. unfold code_usable. destruct (Hdead c eq_refl) as [Hc|Hc].
  - rewrite Hc. reflexivity.
  - replace (now ctx <? AuthorizationCode.expires_at c) with false
      by (symmetry; apply Z.ltb_ge; lia).
    destruct (AuthorizationCode.consumed c); reflexivity.
Qed.

(** A consumed or expired code never yields a token. *)
Lemma token_dead_code (ctx : Ctx) (st : State) (req : Request) (v : string) :
  param req "grant_type" = Some "authorization_code" ->
  param req "code" = Some v ->
  (forall c, find_code (store st) v = Some c ->
             AuthorizationCode.consumed c = true
             \/ AuthorizationCode.expires_at c <= now ctx) ->
  token ctx st req = (st, unknown_client_401)
  \/ token ctx st req = (st, invalid_grant_400).
Proof.
  intros Hgrant Hcode Hdead.
  destruct (token_cases ctx st req) as [[_ H]|H]; [now left|right].
  destruct H as (client & rest & credentials & s' & headers & body & status
                 & _ & Hengine & ->).
  rewrite (authorization_code_grant_dead ctx (store st) client
             (Client.token_expires_in client) (_get_request_information req)
             credentials v Hgrant Hcode Hdead) in Hengine.
  injection Hengine as <- <- <- <-. now rewrite set_store_same.
Qed.

(** A successful exchange leaves the code consumed. *)
Lemma token_consumes (ctx : Ctx) (st : State) (req : Request) (v : string) :
  param req "grant_type" = Some "authorization_code" ->
  param req "code" = Some v ->
  has_status 200 (snd (token ctx st req)) ->
  consumed_code v (store (fst (token ctx st req))).
Proof.
  intros Hgrant Hcode (b0 & hs0 & Hok).
  destruct (token_cases ctx st req) as [[_ H]|H].
  - rewrite H in Hok. discriminate Hok.
  - destruct H as (client & rest & credentials & s' & hs & payload & status
                   & _ & Hengine & Htoken).
    rewrite Htoken in Hok |- *. simpl in Hok |- *. injection Hok as _ -> _.
    unfold create_token_response in Hengine.
    change (assoc "grant_type" (body (_get_request_information req)))
      with (param req "grant_type") in Hengine.
    rewrite Hgrant in Hengine. simpl in Hengine.
    unfold authorization_code_grant in Hengine.
    change (assoc "code" (body (_get_request_information req)))
      with (param req "code") in Hengine.
    rewrite Hcode in Hengine.
    destruct (find_code (store st) v) as [c|] eqn:Hfind; [|discriminate Hengine].
    destruct (code_usable ctx client _ c); [|discriminate Hengine].
    injection Hengine as <- _ _.
    exists (AuthorizationCode.consume c). split; [|reflexivity].
    unfold find_code in *. simpl. unfold mark_consumed.
    rewrite find_code_map.
    + rewrite Hfind. simpl. apply find_some in Hfind as [_ Heq].
      now rewrite Heq.
    + intros c0. destruct (String.eqb (AuthorizationCode.code c0) v); reflexivity.
Qed.

(** A consumed or expired code is turned down, and how depends on the client
    alone. *)
Lemma token_dead_code_split (ctx : Ctx) (st : State) (req : Request) (v : string) :
  param req "grant_type" = Some "authorization_code" ->
  param req "code" = Some v ->
  (forall c, find_code (store st) v = Some c ->
             AuthorizationCode.consumed c = true
             \/ AuthorizationCode.expires_at c <= now ctx) ->
  (search_client (store st) (token_client_id st req) = [] ->
   token ctx st req = (st, unknown_client_401))
  /\ (search_client (store st) (token_client_id st req) <> [] ->
      token ctx st req = (st, invalid_grant_400)).
Proof.
  intros Hgrant Hcode Hdead.
  destruct (token_cases ctx st req) as [[Hmiss H]|H].
  - split; [intros _; exact H | congruence].
  - destruct H as (client & rest & credentials & s' & hs & payload & status
                   & Hhit & Hengine & ->).
    split; [congruence|]. intros _.
    rewrite (authorization_code_grant_dead ctx (store st) client
               (Client.token_expires_in client) (_get_request_information req)
               credentials v Hgrant Hcode Hdead) in Hengine.
    injection Hengine as <- <- <- <-. now rewrite set_store_same.
Qed.

(** C1, as amended. A code that is consumed or expired never yields a token
    and the state is left as it was: when the client identifier the request
    is served under (its [client_id], or the session's when it gives none)
    names a registered client the exchange is turned down with
    [invalid_grant] (400), and when it names none with the controller's 401
    [invalid_client_id]. And once a code has been exchanged successfully, this
    is the answer to every later exchange attempt presenting the same code
    value, whatever requests were served in between and from whatever
    session. *)
Theorem authorization_code_single_use :
  (forall ctx st req v,
     param req "grant_type" = Some "authorization_code" ->
     param req "code" = Some v ->
     (forall c, find_code (store st) v = Some c ->
                AuthorizationCode.consumed c = true
                \/ AuthorizationCode.expires_at c <= now ctx) ->
     (search_client (store st) (token_client_id st req) = [] ->
      token ctx st req = (st, unknown_client_401))
     /\ (search_client (store st) (token_client_id st req) <> [] ->
         token ctx st req = (st, invalid_grant_400)))
  /\ (forall generate_user_id ctx st req v,
        param req "grant_type" = Some "authorization_code" ->
        param req "code" = Some v ->
        has_status 200 (snd (token ctx st req)) ->
        forall calls sess ctx' req',
          param req' "grant_type" = Some "authorization_code" ->
          param req' "code" = Some v ->
          let st' := {| store := serve_all generate_user_id
                                   (store (fst (token ctx st req))) calls;
                        session := sess |} in
          (search_client (store st') (token_client_id st' req') = [] ->
           token ctx' st' req' = (st', unknown_client_401))
          /\ (search_client (store st') (token_client_id st' req') <> [] ->
              token ctx' st' req' = (st', invalid_grant_400))).
Proof.
  split; [exact token_dead_code_split|].
  intros g ctx st req v Hgrant Hcode Hok calls sess ctx' req' Hgrant' Hcode' st'.
  apply (token_dead_code_split ctx' st' req' v Hgrant' Hcode').
  pose proof (serve_all_consumed g v calls _ (token_consumes ctx st req v Hgrant Hcode Hok))
    as (c & Hfind & Hc).
  intros c' Hfind'. left. simpl in Hfind'. rewrite Hfind in Hfind'.
  now injection Hfind' as <-.
Qed.

Lemma authorization_code_single_use_witness :
  has_status 200 (snd (token ctx0 st_code exchange))
  /\ (let st' := {| store := serve_all (fun _ => "uid")
                               (store (fst (token ctx0 st_code exchange)))
                               calls_between;
                    session := no_session |} in
      token ctx1 st' exchange = (st', invalid_grant_400)
      /\ token ctx1 st' exchange_unknown_client = (st', unknown_client_401)).
Proof.
  assert (Hok : has_status 200 (snd (token ctx0 st_code exchange)))
    by (eexists; eexists; reflexivity).
  split; [exact Hok|]. split.
  - apply (proj2 (proj2 authorization_code_single_use (fun _ => "uid") ctx0 st_code
                    exchange "c0de" eq_refl eq_refl Hok calls_between no_session ctx1
                    exchange eq_refl eq_refl)).
    discriminate.
  - apply (proj1 (proj2 authorization_code_single_use (fun _ => "uid") ctx0 st_code
                    exchange "c0de" eq_refl eq_refl Hok calls_between no_session ctx1
                    exchange_unknown_client eq_refl eq_refl)).
    reflexivity.
Defined.

(** C1 as stated does not hold: after a successful exchange, the same code
    presented under an unregistered client identifier is turned down with
    [invalid_client_id], not with [invalid_grant]. *)
Lemma exchanged_code_unknown_client_not_invalid_grant :
  ~ (forall ctx st req v,
       param req "grant_type" = Some "authorization_code" ->
       param req "code" = Some v ->
       has_status 200 (snd (token ctx st req)) ->
       forall ctx' req',
         param req' "grant_type" = Some "authorization_code" ->
         param req' "code" = Some v ->
         fails_with "invalid_grant" (snd (token ctx' (fst (token ctx st req)) req'))).
Proof.
  intros H.
  assert (Hok : has_status 200 (snd (token ctx0 st_code exchange)))
    by (eexists; eexists; reflexivity).
  destruct (H ctx0 st_code exchange "c0de" eq_refl eq_refl Hok ctx1
              exchange_unknown_client eq_refl eq_refl) as (status & hs & Heq).
  vm_compute in Heq. discriminate Heq.
Qed.

(** ** Further properties of the controller *)

(** The [except] clauses let no OAuth2 error through. *)
Lemma except_oauth2_catches (r : result) (error description : string) :
  except_oauth2 r <> Raise (FatalClientError error description)
  /\ except_oauth2 r <> Raise (OAuth2Error error description).
Proof. destruct r as [resp|[]]; simpl; split; discriminate. Qed.

(** X1. [authorize] never lets a fatal client error or any other OAuth2 error
    escape, whether it was raised by the validation or, for a client that
    skips the consent page, inside [authorize_post]: both are inside the
    [try] block. *)
Theorem authorize_never_raises_oauth2 (ctx : Ctx) (st : State) (req : Request)
    (error description : string) :
  snd (authorize ctx st req) <> Raise (FatalClientError error description)
  /\ snd (authorize ctx st req) <> Raise (OAuth2Error error description).
Proof.
  unfold authorize.
  destruct (search_client _ _) as [|client rest]; [split; discriminate|].
  destruct (validate_authorization_request _ _) as [e|[scopes credentials]].
  - apply except_oauth2_catches.
  - destruct (Client.skip_authorization client); [|split; discriminate].
    destruct (authorize_post ctx (remember st scopes credentials) req) as [st2 r].
    apply except_oauth2_catches.
Qed.

(** X2. For a client that does not skip the consent page, a validated
    GET /oauth2/authorize only writes the session: the store is left as it was
    (no code is issued before consent), and the consent page shows the
    client's name with exactly those scopes of the client whose code was
    granted. *)
Theorem authorize_consent_page (ctx : Ctx) (st : State) (req : Request)
    (client : Client.t) (rest : list Client.t) (scopes : list string)
    (credentials : Credentials) :
  search_client (store st) (param req "client_id") = client :: rest ->
  validate_authorization_request client (_get_request_information req)
  = inr (scopes, credentials) ->
  Client.skip_authorization client = false ->
  store (fst (authorize ctx st req)) = store st
  /\ exists shown,
       snd (authorize ctx st req)
       = Return (Render (authorization (Client.name client) shown))
       /\ forall sc, In sc shown
                     <-> In sc (Client.scope_ids client) /\ In (Scope.code sc) scopes.
Proof.
  intros Hsearch Hvalid Hskip.
  unfold authorize. rewrite Hsearch, Hvalid, Hskip. simpl.
  split; [reflexivity|].
  exists (scopes_in scopes (Client.scope_ids client)). split; [reflexivity|].
  intros sc. unfold scopes_in. rewrite filter_In. split.
  - intros [Hin Hm]. split; [done | now apply mem_In].
  - intros [Hin Hm]. split; [done | now apply In_mem].
Qed.

Lemma authorize_consent_page_witness :
  store (fst (authorize ctx0 st0 authorize_app1)) = store st0
  /\ exists shown,
       snd (authorize ctx0 st0 authorize_app1)
       = Return (Render (authorization "App One" shown))
       /\ forall sc, In sc shown
                     <-> In sc (Client.scope_ids app1) /\ In (Scope.code sc) ["profile"].
Proof.
  apply (authorize_consent_page ctx0 st0 authorize_app1 app1 [] ["profile"]
           app1_credentials); reflexivity.
Defined.

(** X3. The consent round trip. After a validated GET /oauth2/authorize for a
    client with a consent page, POST /oauth2/authorize in the same session
    finds the client and the pending authorization again: it answers with a
    302 redirect whose target is exactly a redirect URI registered for that
    client, the one the GET named if it named one, followed by the query
    [?code=<code>] and, if the GET had a state, [&state=<state>]; the session
    is left as it is. *)
Theorem consent_round_trip (ctx ctx' : Ctx) (st : State) (req req' : Request)
    (client : Client.t) (rest : list Client.t) (scopes : list string)
    (credentials : Credentials) :
  search_client (store st) (param req "client_id") = client :: rest ->
  validate_authorization_request client (_get_request_information req)
  = inr (scopes, credentials) ->
  Client.skip_authorization client = false ->
  exists redirect_uri st',
    In redirect_uri (Client.redirect_uris client)
    /\ (forall u, param req "redirect_uri" = Some u -> u = redirect_uri)
    /\ authorize_post ctx' (fst (authorize ctx st req)) req'
       = (st', Return (Redirect
                         (redirect_uri +:+ "?code=" +:+ fresh_code ctx' +:+
                          match param req "state" with
                          | Some state => "&state=" +:+ state
                          | None => ""
                          end) 302))
    /\ session st' = session (fst (authorize ctx st req)).
Proof.
  intros Hsearch Hvalid Hskip.
  assert (Hst : fst (authorize ctx st req) = remember st scopes credentials)
    by (unfold authorize; now rewrite Hsearch, Hvalid, Hskip).
  destruct (authorize_post_location ctx ctx' st req req' client rest scopes
              credentials Hsearch Hvalid)
    as (u & codes' & Hu & Hexact & Hpost).
  exists u. eexists. split; [exact Hu|]. split; [exact Hexact|]. rewrite Hst.
  split; [exact Hpost | reflexivity].
Qed.

Lemma consent_round_trip_witness :
  exists redirect_uri st',
    In redirect_uri (Client.redirect_uris app1)
    /\ (forall u, param authorize_app1 "redirect_uri" = Some u -> u = redirect_uri)
    /\ authorize_post ctx1 (fst (authorize ctx0 st0 authorize_app1)) consent
       = (st', Return (Redirect
                         (redirect_uri +:+ "?code=" +:+ fresh_code ctx1 +:+
                          match param authorize_app1 "state" with
                          | Some state => "&state=" +:+ state
                          | None => ""
                          end) 302))
    /\ session st' = session (fst (authorize ctx0 st0 authorize_app1)).
Proof.
  apply (consent_round_trip ctx0 ctx1 st0 authorize_app1 consent app1 [] ["profile"]
           app1_credentials); reflexivity.
Defined.

(** X4. When the request gives [client_id], the session plays no part in
    [token]: the answer and the resulting store are the same under any two
    sessions, even one that names another registered client, and the session
    itself is handed back untouched. *)
Theorem token_client_id_parameter_wins (ctx : Ctx) (s : Store) (sess sess' : Session)
    (req : Request) (client_id : string) :
  param req "client_id" = Some client_id ->
  snd (token ctx {| store := s; session := sess |} req)
  = snd (token ctx {| store := s; session := sess' |} req)
  /\ store (fst (token ctx {| store := s; session := sess |} req))
     = store (fst (token ctx {| store := s; session := sess' |} req))
  /\ session (fst (token ctx {| store := s; session := sess |} req)) = sess.
Proof.
  intros Hparam. unfold token, token_client_id. rewrite Hparam. simpl.
  destruct (search_client s (Some client_id)) as [|client rest];
    [repeat split; reflexivity|].
  match goal with
  | |- context [create_token_response ?c ?s0 ?cl ?e ?i ?cr] =>
      destruct (create_token_response c s0 cl e i cr) as [s1 [[hs payload] status]]
  end.
  repeat split; reflexivity.
Qed.

Lemma token_client_id_parameter_wins_witness :
  snd (token ctx0 {| store := store st_code; session := no_session |}
         exchange)
  = snd (token ctx0 {| store := store st_code; session := other_session |}
           exchange)
  /\ store (fst (token ctx0 {| store := store st_code; session := no_session |}
                   exchange))
     = store (fst (token ctx0 {| store := store st_code; session := other_session |}
                     exchange))
  /\ session (fst (token ctx0 {| store := store st_code; session := no_session |}
                     exchange)) = no_session.
Proof.
  apply (token_client_id_parameter_wins ctx0 (store st_code) no_session other_session
           exchange "trusted").
  reflexivity.
Defined.

(** X5. The three data endpoints only read: [tokeninfo], [userinfo] and
    [otherinfo] hand back the state they were given, store and session, on
    every path, the failing ones included. *)
Theorem data_endpoints_read_only (generate_user_id : Token.t -> string) (ctx : Ctx)
    (st : State) (req : Request) :
  fst (tokeninfo generate_user_id ctx st req) = st
  /\ fst (userinfo ctx st req) = st
  /\ fst (otherinfo ctx st req) = st.
Proof.
  split; [|split].
  - apply tokeninfo_reads.
  - apply userinfo_reads.
  - apply otherinfo_reads.
Qed.

(** [split(' ', 1)] on a string without a space gives the string alone. *)
Lemma split_once_no_space (s : string) :
  has_space s = false -> split_once s = [s].
Proof.
  induction s as [|c r IH]; simpl; [reflexivity|].
  destruct (Ascii.eqb c " "); simpl; [discriminate|].
  intros H. now rewrite (IH H).
Qed.

(** [split(' ', 1)] cuts at the first space and keeps the rest whole. *)
Lemma split_once_cut (a b : string) :
  has_space a = false -> split_once (a +:+ " " +:+ b) = [a; b].
Proof.
  induction a as [|c r IH]; simpl; [reflexivity|].
  destruct (Ascii.eqb c " "); simpl; [discriminate|].
  intros H. now rewrite (IH H).
Qed.

(** X6. An [Authorization] header whose value contains no space makes
    [userinfo] fail on unpacking the split: a [ValueError] is raised, whatever
    the [access_token] parameter, and the state is unchanged. *)
Theorem userinfo_header_without_space (ctx : Ctx) (st : State) (req : Request)
    (h : string) :
  assoc "Authorization" (headers req) = Some h ->
  has_space h = false ->
  userinfo ctx st req = (st, Raise (ValueError "not enough values to unpack")).
Proof.
  intros Hh Hspace. unfold userinfo. rewrite Hh.
  now rewrite (split_once_no_space h Hspace).
Qed.

Lemma userinfo_header_without_space_witness :
  userinfo ctx0 st_token userinfo_malformed
  = (st_token, Raise (ValueError "not enough values to unpack")).
Proof.
  apply (userinfo_header_without_space ctx0 st_token userinfo_malformed "Bearer");
    reflexivity.
Defined.

(** X7. Where [userinfo] takes the token from. Under a header
    [<scheme> <credential>] whose scheme is anything but "Basic", the token
    checked is the credential of the header and the [access_token] parameter
    is ignored; under a "Basic" header the token checked is the
    [access_token] parameter. Either way a failed check is answered 401 and a
    passed one with the data of the token's user. *)
Theorem userinfo_token_source (ctx : Ctx) (st : State) (req : Request)
    (scheme credential : string) :
  assoc "Authorization" (headers req) = Some (scheme +:+ " " +:+ credential) ->
  has_space scheme = false ->
  userinfo ctx st req
  = match _check_access_token ctx st req
            (if String.eqb scheme "Basic" then param req "access_token"
             else Some credential) with
    | None =>
        (st, Return (BaseResponse
                       (Some (JObj [("error", JStr "invalid_or_expired_token")]))
                       401 [("Content-Type", "application/json")]))
    | Some tk =>
        (st, Return (BaseResponse
                       (Some (JObj (get_data_for_model (store st) tk "res.users"
                                      (Token.user_id tk))))
                       200 [("Content-Type", "application/json")]))
    end.
Proof.
  intros Hh Hspace. unfold userinfo. rewrite Hh.
  rewrite (split_once_cut scheme credential Hspace).
  destruct (String.eqb scheme "Basic"); reflexivity.
Qed.

Lemma userinfo_token_source_witness :
  userinfo ctx0 st_token userinfo_other_scheme
  = (st_token,
     Return (BaseResponse
               (Some (JObj [("id", JNum 7); ("name", JStr "Alice");
                            ("login", JStr "alice")]))
               200 [("Content-Type", "application/json")]))
  /\ userinfo ctx0 st_token userinfo_basic
     = (st_token,
        Return (BaseResponse
                  (Some (JObj [("id", JNum 7); ("name", JStr "Alice");
                               ("login", JStr "alice")]))
                  200 [("Content-Type", "application/json")])).
Proof.
  split.
  - rewrite (userinfo_token_source ctx0 st_token userinfo_other_scheme "Bearer" "tok1"
               eq_refl eq_refl).
    reflexivity.
  - rewrite (userinfo_token_source ctx0 st_token userinfo_basic "Basic" "dXNlcjpwdw=="
               eq_refl eq_refl).
    reflexivity.
Defined.

Lemma search_token_None (s : Store) : search_token s None = [].
Proof.
  unfold search_token. induction (tokens s) as [|tk l IH]; simpl; [reflexivity | exact IH].
Qed.

(** X8. A request without [access_token] never passes the check: [tokeninfo]
    and [otherinfo] answer 401 with [{"error": "invalid_or_expired_token"}],
    whatever the store holds and whatever else the request carries. *)
Theorem data_endpoints_require_access_token (generate_user_id : Token.t -> string)
    (ctx : Ctx) (st : State) (req : Request) :
  param req "access_token" = None ->
  tokeninfo generate_user_id ctx st req
  = (st, Return (BaseResponse
                   (Some (JObj [("error", JStr "invalid_or_expired_token")]))
                   401 [("Content-Type", "application/json")]))
  /\ otherinfo ctx st req
     = (st, Return (BaseResponse
                      (Some (JObj [("error", JStr "invalid_or_expired_token")]))
                      401 [("Content-Type", "application/json")])).
Proof.
  intros Hnone. unfold tokeninfo, otherinfo, _check_access_token.
  rewrite Hnone, search_token_None. split; reflexivity.
Qed.

Lemma data_endpoints_require_access_token_witness :
  tokeninfo (fun _ => "uid") ctx0 st_token tokeninfo_no_token
  = (st_token,
     Return (BaseResponse
               (Some (JObj [("error", JStr "invalid_or_expired_token")]))
               401 [("Content-Type", "application/json")])).
Proof.
  apply (proj1 (data_endpoints_require_access_token (fun _ => "uid") ctx0 st_token
                  tokeninfo_no_token eq_refl)).
Defined.

(** X9. Whatever token [_check_access_token] returns is a stored token whose
    value is the one asked for, and the server has accepted the request. *)
Theorem check_access_token_sound (ctx : Ctx) (st : State) (req : Request)
    (access_token : option string) (tk : Token.t) :
  _check_access_token ctx st req access_token = Some tk ->
  In tk (tokens (store st))
  /\ access_token = Some (Token.token tk)
  /\ fst (verify_request ctx (store st) (_get_request_information req)) = true.
Proof.
  unfold _check_access_token.
  destruct (search_token (store st) access_token) as [|tk0 rest] eqn:Hsearch;
    [discriminate|].
  destruct (verify_request ctx (store st) (_get_request_information req))
    as [valid r]. simpl.
  destruct valid; [|discriminate]. intros [= <-].
  assert (Hin : In tk0 (search_token (store st) access_token))
    by (rewrite Hsearch; now left).
  unfold search_token in Hin. apply filter_In in Hin as [Hin Heq].
  repeat split; [exact Hin | now apply opt_eqb_Some].
Qed.

Lemma check_access_token_sound_witness :
  In tok1 (tokens (store st_token))
  /\ Some "tok1" = Some (Token.token tok1)
  /\ fst (verify_request ctx0 (store st_token)
            (_get_request_information otherinfo_users)) = true.
Proof.
  apply (check_access_token_sound ctx0 st_token otherinfo_users (Some "tok1") tok1).
  reflexivity.
Defined.

(** X10. What [tokeninfo] answers for a token that passes the check depends on
    the user fields its scopes expose. Without the user's [id] the answer is
    200 with audience, scopes and [expires_in], the expiry time minus the
    current time, and nothing about the user. With [id] but without [name],
    or with both but without [login], reading the missing entry raises a
    [KeyError] and there is no answer. *)
Theorem tokeninfo_user_fields (generate_user_id : Token.t -> string) (ctx : Ctx)
    (st : State) (req : Request) (tk : Token.t) :
  _check_access_token ctx st req (param req "access_token") = Some tk ->
  (assoc "id" (get_data_for_model (store st) tk "res.users" (Token.user_id tk)) = None ->
   tokeninfo generate_user_id ctx st req
   = (st, Return (BaseResponse
                    (Some (JObj [("audience",
                                  JStr (Client.identifier (Token.client_id tk)));
                                 ("scopes",
                                  JStr (join_scopes (scope_codes (Token.scope_ids tk))));
                                 ("expires_in", JNum (Token.expires_at tk - now ctx))]))
                    200 [("Content-Type", "application/json")])))
  /\ (assoc "id" (get_data_for_model (store st) tk "res.users" (Token.user_id tk))
      <> None ->
      assoc "name" (get_data_for_model (store st) tk "res.users" (Token.user_id tk))
      = None ->
      tokeninfo generate_user_id ctx st req = (st, Raise (KeyError "name")))
  /\ (assoc "id" (get_data_for_model (store st) tk "res.users" (Token.user_id tk))
      <> None ->
      assoc "name" (get_data_for_model (store st) tk "res.users" (Token.user_id tk))
      <> None ->
      assoc "login" (get_data_for_model (store st) tk "res.users" (Token.user_id tk))
      = None ->
      tokeninfo generate_user_id ctx st req = (st, Raise (KeyError "login"))).
Proof.
  intros Hcheck. unfold tokeninfo. rewrite Hcheck.
  destruct (assoc "id" _) as [i|]; repeat split; try congruence.
  - intros _ ->. reflexivity.
  - intros _ Hname ->. destruct (assoc "name" _); [reflexivity | congruence].
Qed.

Lemma tokeninfo_user_fields_witness :
  tokeninfo (fun _ => "uid") ctx0 st_ident tokeninfo_ident
  = (st_ident, Raise (KeyError "name")).
Proof.
  apply (proj1 (proj2 (tokeninfo_user_fields (fun _ => "uid") ctx0 st_ident
                         tokeninfo_ident tok_id eq_refl)));
    [discriminate | reflexivity].
Defined.

(** The session once [authorize] has validated the request. *)
Lemma authorize_session (ctx : Ctx) (st : State) (req : Request)
    (client : Client.t) (rest : list Client.t) (scopes : list string)
    (credentials : Credentials) :
  search_client (store st) (param req "client_id") = client :: rest ->
  validate_authorization_request client (_get_request_information req)
  = inr (scopes, credentials) ->
  session (fst (authorize ctx st req))
  = {| oauth_scopes := Some scopes;
       oauth_credentials := Some (stored_credentials credentials) |}.
Proof.
  intros Hsearch Hvalid. unfold authorize. rewrite Hsearch, Hvalid. cbv zeta.
  destruct (Client.skip_authorization client); [|reflexivity].
  pose proof (authorize_post_session ctx (remember st scopes credentials) req) as H.
  destruct (authorize_post ctx (remember st scopes credentials) req). exact H.
Qed.

(** X11. POST /oauth2/deny never changes the state. Sent, with the default
    button, into a session that holds no pending authorization it fails with
    an attribute error; sent after a validated GET /oauth2/authorize it
    returns grant 400 together with the redirect URI that request was
    validated for. *)
Theorem deny_post_pending_authorization (ctx : Ctx) (st : State) (req req' : Request) :
  fst (deny_post st req') = st
  /\ (param req' "submit_button" = None ->
      oauth_credentials (session st) = None ->
      deny_post st req' = (st, DenyAttributeError))
  /\ (forall client rest scopes credentials,
        param req' "submit_button" = None ->
        search_client (store st) (param req "client_id") = client :: rest ->
        validate_authorization_request client (_get_request_information req)
        = inr (scopes, credentials) ->
        snd (deny_post (fst (authorize ctx st req)) req')
        = DenyData (JObj [("grant", JNum 400);
                          ("redirect_uri",
                           match cr_redirect_uri credentials with
                           | PStr redirect_uri => JStr redirect_uri
                           | PNone => JNull
                           end)])).
Proof.
  split; [|split].
  - unfold deny_post. case_matches; reflexivity.
  - intros Hbutton Hnone. unfold deny_post. now rewrite Hbutton, Hnone.
  - intros client rest scopes credentials Hbutton Hsearch Hvalid.
    unfold deny_post. rewrite Hbutton. simpl.
    rewrite (authorize_session ctx st req client rest scopes credentials Hsearch Hvalid).
    simpl. destruct (stored_credentials_lookup credentials) as (_ & -> & _).
    reflexivity.
Qed.

Lemma deny_post_pending_authorization_witness :
  deny_post st0 deny = (st0, DenyAttributeError)
  /\ snd (deny_post (fst (authorize ctx0 st0 authorize_app1)) deny)
     = DenyData (JObj [("grant", JNum 400); ("redirect_uri", JStr "https://app1/cb")]).
Proof.
  split.
  - apply (proj1 (proj2 (deny_post_pending_authorization ctx0 st0 authorize_app1 deny)));
      reflexivity.
  - apply (proj2 (proj2 (deny_post_pending_authorization ctx0 st0 authorize_app1 deny))
             app1 [] ["profile"] app1_credentials); reflexivity.
Defined.

Lemma search_client_same_clients (s s' : Store) (client_id : option string) :
  clients s' = clients s -> search_client s' client_id = search_client s client_id.
Proof. unfold search_client. now intros ->. Qed.

(** Neither route of the authorization endpoint touches the client table. *)
Lemma authorize_post_clients (ctx : Ctx) (st : State) (req : Request) :
  clients (store (fst (authorize_post ctx st req))) = clients (store st).
Proof.
  unfold authorize_post.
  destruct (search_client _ _) as [|client rest]; [reflexivity|].
  destruct (oauth_scopes _) as [scopes|]; [|reflexivity].
  destruct (oauth_credentials _) as [credentials|]; [|reflexivity].
  assert (H : clients (fst (create_authorization_response ctx (store st) client
                              scopes credentials)) = clients (store st))
    by (unfold create_authorization_response; case_matches; reflexivity).
  destruct (create_authorization_response _ _ _ _ _) as [s' [e|[[hs b] status]]];
    [exact H|].
  destruct (assoc "Location" hs); exact H.
Qed.

Lemma authorize_clients (ctx : Ctx) (st : State) (req : Request) :
  clients (store (fst (authorize ctx st req))) = clients (store st).
Proof.
  unfold authorize.
  destruct (search_client _ _) as [|client rest]; [reflexivity|].
  destruct (validate_authorization_request _ _) as [e|[scopes credentials]];
    [reflexivity|].
  destruct (Client.skip_authorization client); [|reflexivity].
  pose proof (authorize_post_clients ctx (remember st scopes credentials) req) as H.
  destruct (authorize_post ctx (remember st scopes credentials) req). exact H.
Qed.

(** A request whose client is found is not answered [invalid_client_id]. *)
Lemma token_known_client (ctx : Ctx) (st : State) (req : Request) :
  search_client (store st) (token_client_id st req) <> [] ->
  ~ fails_with "invalid_client_id" (snd (token ctx st req)).
Proof.
  intros Hhit. destruct (token_cases ctx st req) as [[H _]|H]; [congruence|].
  destruct H as (client & rest & credentials & s' & hs & payload & status
                 & _ & Hengine & Htoken).
  rewrite Htoken. simpl. intros (status' & hs' & Heq). injection Heq as -> _ _.
  pose proof (create_token_response_outcome ctx (store st) client
                (Client.token_expires_in client) (_get_request_information req)
                credentials) as Hout.
  rewrite Hengine in Hout. destruct Hout as [(s1 & v & r & Heq)|(e & Hin & Heq & _)].
  - discriminate Heq.
  - injection Heq as _ _ He _. subst e. simpl in Hin.
    repeat destruct Hin as [Hin|Hin]; try discriminate Hin. exact Hin.
Qed.

(** X12. From authorization to token through the session. After a validated
    GET /oauth2/authorize, a POST /oauth2/token of the same session that omits
    [client_id] is served for the client of the authorization request: the
    identifier it searches with is that client's, and the answer is not the
    unknown-client 401. *)
Theorem token_after_authorize (ctx ctx' : Ctx) (st : State) (req req' : Request)
    (client : Client.t) (rest : list Client.t) (scopes : list string)
    (credentials : Credentials) :
  search_client (store st) (param req "client_id") = client :: rest ->
  validate_authorization_request client (_get_request_information req)
  = inr (scopes, credentials) ->
  param req' "client_id" = None ->
  token_client_id (fst (authorize ctx st req)) req' = Some (Client.identifier client)
  /\ ~ fails_with "invalid_client_id" (snd (token ctx' (fst (authorize ctx st req)) req')).
Proof.
  intros Hsearch Hvalid Hnone.
  destruct (validate_authorization_request_ok _ _ _ _ Hvalid) as (_ & Hcid & _).
  destruct (search_client_hit _ _ _ _ Hsearch) as [_ Hid].
  assert (Htid : token_client_id (fst (authorize ctx st req)) req'
                 = Some (Client.identifier client)).
  { unfold token_client_id. rewrite Hnone.
    rewrite (authorize_session ctx st req client rest scopes credentials Hsearch Hvalid).
    unfold session_client_id. simpl.
    destruct (stored_credentials_lookup credentials) as (-> & _).
    now rewrite Hcid. }
  split; [exact Htid|].
  apply token_known_client. rewrite Htid.
  rewrite (search_client_same_clients (store st) _ _ (authorize_clients ctx st req)).
  rewrite <- Hid, Hsearch. discriminate.
Qed.

Lemma token_after_authorize_witness :
  token_client_id (fst (authorize ctx0 st0 authorize_trusted)) exchange_from_session
  = Some (Client.identifier trusted)
  /\ ~ fails_with "invalid_client_id"
         (snd (token ctx1 (fst (authorize ctx0 st0 authorize_trusted))
                 exchange_from_session)).
Proof.
  apply (token_after_authorize ctx0 ctx1 st0 authorize_trusted exchange_from_session
           trusted [] ["profile"] trusted_credentials); reflexivity.
Defined.
